(** * CrossKD-GFL: the cross-head knowledge-distillation detector

    A shallow embedding of [mmdet/models/detectors/crosskd_gfl.py] (class
    [CrossKDGFL]) and of the two training configurations
    [configs/our/our_r50_fpn_ms-2x_coco.py] and
    [mmdet/.mim/configs/faster_rcnn/faster-rcnn_r50_fpn_1x_coco.py].

    Conventions of the embedding.
    - A 4-d tensor of shape (N, C, H, W) is a nested list, outermost
      dimension first.  Tensor entries are real numbers: the arithmetic of
      the code is read over [R], rounding is not modelled.
    - A loss "tensor" returned for one scale level is a scalar, a real.
    - A Python dict with string keys is a [gmap string _].
    - A method of [CrossKDGFL] is a computation in a state-and-exception
      monad over the detector object ([self], which owns the teacher): it
      returns a value or raises, and hands back the detector.
    - Sub-modules that live outside the file (conv modules, the heads'
      target assignment, the configured loss modules, [reduce_mean]) are
      fields of the records below; a call of one is taken to return.
    - Tensors are values.  The one tensor that the source has two names
      for while it is written, the feature held by
      [forward_crosskd_single], is followed through the [inplace] flag of
      the conv module whose activation receives it. *)

From Stdlib Require Import Reals Lra List Arith Lia QArith.
From stdpp Require Import gmap strings.
Import ListNotations.

(** ** Training configurations *)

Module Config.

(** One entry of [param_scheduler]. *)
Inductive scheduler :=
| LinearLR (start_factor : Q) (by_epoch : bool) (begin_ end_ : Z)
| MultiStepLR (begin_ end_ : Z) (by_epoch : bool)
              (milestones : list Z) (gamma : Q).

Record config := {
  max_epochs : Z;
  param_scheduler : list scheduler;
  train_cfg_max_epochs : Z
}.

(** configs/our/our_r50_fpn_ms-2x_coco.py, lines 2-16 *)
Definition our_r50_fpn_ms_2x_coco : config :=
  let max_epochs := 58%Z in
  {| max_epochs := max_epochs;
     param_scheduler :=
       [ LinearLR (1 # 1000) false 0 500;
         MultiStepLR 0 max_epochs true [38%Z; 54%Z] (1 # 10) ];
     train_cfg_max_epochs := max_epochs |}.

(** mmdet/.mim/configs/faster_rcnn/faster-rcnn_r50_fpn_1x_coco.py,
    lines 6-20 *)
Definition faster_rcnn_r50_fpn_1x_coco : config :=
  let max_epochs := 58%Z in
  {| max_epochs := max_epochs;
     param_scheduler :=
       [ LinearLR (1 # 1000) false 0 500;
         MultiStepLR 0 max_epochs true [38%Z; 54%Z] (1 # 10) ];
     train_cfg_max_epochs := max_epochs |}.

(** The warm-up entry of a schedule: start factor and iteration span. *)
Definition warmup (c : config) : option (Q * Z * Z) :=
  match param_scheduler c with
  | LinearLR f false b e :: _ => Some (f, b, e)
  | _ => None
  end.

(** The step-decay entry of a schedule: decay factor and epochs. *)
Definition decay (c : config) : option (Q * list Z) :=
  match param_scheduler c with
  | [_; MultiStepLR _ _ true ms g] => Some (g, ms)
  | _ => None
  end.

End Config.

(** ** Exceptions and the method monad *)

Inductive PyErr := IndexError | ValueError | AssertionError | RuntimeError.

(** Outcome of a Python expression: a value, or a raised exception. *)
Inductive Res (A : Type) :=
| Ok (a : A)
| Raise (e : PyErr).
Arguments Ok {A} a.
Arguments Raise {A} e.

#[global] Instance Res_ret : MRet Res := fun _ a => Ok a.
#[global] Instance Res_bind : MBind Res := fun _ _ f r =>
  match r with
  | Ok a => f a
  | Raise e => Raise e
  end.

(** A method running against the object store [S]: it yields an outcome and
    the store it leaves behind. *)
Definition M (S A : Type) : Type := S -> Res A * S.

#[global] Instance M_ret {S} : MRet (M S) := fun _ a s => (Ok a, s).
#[global] Instance M_bind {S} : MBind (M S) := fun _ _ f m s =>
  match m s with
  | (Ok a, s') => f a s'
  | (Raise e, s') => (Raise e, s')
  end.

(** Reading the object, [self.attr = ...] on it, raising, and a pure
    expression inside a method. *)
Definition get {S} : M S S := fun s => (Ok s, s).
Definition put {S} (s : S) : M S unit := fun _ => (Ok tt, s).
Definition raise {S A} (e : PyErr) : M S A := fun s => (Raise e, s).
Definition lift {S A} (r : Res A) : M S A := fun s => (r, s).

(** [l[i]] on a Python list. *)
Definition index {A} (l : list A) (i : nat) : Res A :=
  match nth_error l i with
  | Some a => Ok a
  | None => Raise IndexError
  end.

(** [map] in the method monad, left to right. *)
Fixpoint mapM {S A B} (f : A -> M S B) (l : list A) : M S (list B) :=
  match l with
  | [] => mret []
  | a :: l' => b ← f a; bs ← mapM f l'; mret (b :: bs)
  end.

(** [tuple(map(list, zip( *results )))] for results that are pairs, triples
    and 4-tuples. *)
Definition unzip2 {A B} (l : list (A * B)) : list A * list B :=
  (map fst l, map snd l).
Definition unzip3 {A B C} (l : list (A * B * C)) : list A * list B * list C :=
  (map (fun t => fst (fst t)) l, map (fun t => snd (fst t)) l, map snd l).
Definition unzip4 {A B C D} (l : list (A * B * C * D))
  : list A * list B * list C * list D :=
  (map (fun t => fst (fst (fst t))) l, map (fun t => snd (fst (fst t))) l,
   map (fun t => snd (fst t)) l, map snd l).

(** Modelled from the spec: [multi_apply] belongs to the detection
    framework, which the spec leaves to its documented interface, and is
    not among the sources.  [multi_apply(func, *args)] maps [func] over the
    zipped argument lists (the caller zips them, [zip] stops at the
    shortest) and transposes the results.  With no level at all the
    transposed tuple is empty and the caller's tuple unpacking raises
    [ValueError]. *)
Definition multi_apply {S A B T} (unzip : list B -> T) (func : A -> M S B)
    (args : list A) : M S T :=
  rs ← mapM func args;
  match rs with
  | [] => raise ValueError
  | _ => mret (unzip rs)
  end.

(** ** Tensors *)

Abbreviation Tensor1 := (list R).
Abbreviation Tensor2 := (list (list R)).
Abbreviation Tensor4 := (list (list (list (list R)))).

Section Tensors.
Local Open Scope R_scope.

(** [x.size()] of a 4-d tensor, read off the first entries. *)
Definition size4 (x : Tensor4) : nat * nat * nat * nat :=
  let s := hd [] x in
  let ch := hd [] s in
  (length x, length s, length ch, length (hd [] ch)).

(** Row-major contents, as [reshape] sees a contiguous tensor. *)
Definition flatten4 (x : Tensor4) : Tensor1 :=
  concat (map (fun s => concat (map (@concat R) s)) x).

(** [k] consecutive blocks of [m] entries. *)
Definition chunks {A} (k m : nat) (l : list A) : list (list A) :=
  map (fun i => firstn m (skipn (i * m) l)) (seq 0 k).

(** [x.permute(1, 0, 2, 3)] *)
Definition permute_1023 (x : Tensor4) : Tensor4 :=
  let '(_, C, _, _) := size4 x in
  map (fun c => map (fun s => nth c s []) x) (seq 0 C).

(** [x.permute(0, 2, 3, 1)] *)
Definition permute_0231 (x : Tensor4) : Tensor4 :=
  let '(_, _, H, W) := size4 x in
  map (fun s =>
    map (fun h =>
      map (fun w => map (fun ch => nth w (nth h ch []) 0) s) (seq 0 W))
      (seq 0 H)) x.

(** [flat.reshape(C, -1)] *)
Definition reshape_rows (C : nat) (flat : Tensor1) : Res Tensor2 :=
  if (C =? 0)%nat then Raise RuntimeError
  else if (length flat mod C =? 0)%nat
       then Ok (chunks C (length flat / C) flat)
       else Raise RuntimeError.

(** [flat.reshape(-1, K)] *)
Definition reshape_cols (K : nat) (flat : Tensor1) : Res Tensor2 :=
  if (K =? 0)%nat then Raise RuntimeError
  else if (length flat mod K =? 0)%nat
       then Ok (chunks (length flat / K) K flat)
       else Raise RuntimeError.

(** [rows.reshape(C, N, H, W)] for [rows] of shape (C, N*H*W) *)
Definition reshape_CNHW (N H W : nat) (rows : Tensor2) : Tensor4 :=
  map (fun row => map (chunks H W) (chunks N (H * W) row)) rows.

(** Python's [sum]: starts from 0 and adds from the left. *)
Definition sum (l : list R) : R := fold_left Rplus l 0.

(** [row.mean()] *)
Definition mean (l : list R) : R := sum l / INR (length l).

(** [row.std()], with Bessel's correction as [torch.std] defaults to. *)
Definition std (l : list R) : R :=
  sqrt (sum (map (fun v => (v - mean l) * (v - mean l)) l)
        / INR (length l - 1)).

Definition eps : R := 1 / 1000000.

(** [F.relu] *)
Definition relu (x : Tensor4) : Tensor4 :=
  map (map (map (map (Rmax 0)))) x.

(** [x.sigmoid()] on one entry, over the reals.  The real value lies
    strictly between 0 and 1; the rounded value of the program lies
    between 0 and 1 and reaches both ends for arguments of large
    magnitude. *)
Definition sigmoid (v : R) : R := 1 / (1 + exp (- v)).

(** [row.max()] of a non-empty row *)
Definition row_max (row : list R) : R :=
  match row with
  | [] => 0
  | v :: vs => fold_left Rmax vs v
  end.

(** [w[lw == 0] = 0]: the mask must have the shape of [w]. *)
Definition mask_zero (w lw : Tensor1) : Res Tensor1 :=
  if (length w =? length lw)%nat
  then Ok (zip_with (fun wi li => if Req_dec_T li 0 then 0 else wi) w lw)
  else Raise IndexError.

(** [w[:, None].expand(-1, 4).reshape(-1)] *)
Definition expand4 (w : Tensor1) : Tensor1 :=
  flat_map (fun v => [v; v; v; v]) w.

(** [align_scale], lines 106-119 (the method does not use [self]). *)
Definition align_scale (stu_feat tea_feat : Tensor4) : Res Tensor4 :=
  let '(N, C, H, W) := size4 stu_feat in
  stu_rows ← reshape_rows C (flatten4 (permute_1023 stu_feat));
  let stu_norm :=
    map (fun row =>
           let stu_mean := mean row in
           let stu_std := std row in
           map (fun v => (v - stu_mean) / (stu_std + eps)) row) stu_rows in
  tea_rows ← reshape_rows C (flatten4 (permute_1023 tea_feat));
  let stu_out :=
    zip_with (fun row tea_row =>
                let tea_mean := mean tea_row in
                let tea_std := std tea_row in
                map (fun v => v * tea_std + tea_mean) row)
             stu_norm tea_rows in
  mret (permute_1023 (reshape_CNHW N H W stu_out)).

End Tensors.

(** ** The detection framework, as the detector sees it *)

(** Data and helpers supplied by the framework ([mmdet.utils],
    [..utils]); their contents are opaque to [CrossKDGFL]. *)
Class Framework := {
  Image : Type;
  Samples : Type;
  GtInstances : Type;
  ImgMetas : Type;
  RawAnchors : Type;
  ValidFlags : Type;
  Anchors : Type;
  Labels : Type;
  BboxTargets : Type;
  BboxWeights : Type;
  Stride : Type;
  unpack_gt_instances : Samples -> GtInstances * GtInstances * ImgMetas;
  (** average of a scalar across the training processes *)
  reduce_mean : R -> R
}.

(** The conv modules of the heads are the framework's [ConvModule]
    (mmcv), which is not among the sources; what the detector uses of one
    is taken as given.  [conv_norm] is the convolution and normalisation,
    what [conv(x, activate=False)] computes into a tensor of its own;
    [activate] is the activation layer [conv.activate]; [inplace] says
    whether that layer writes its result into the tensor it is given
    (the framework's default, [ReLU(inplace=True)]) or into a new one.
    A call of a framework module is taken to return. *)
Record ConvModule := {
  conv_norm : Tensor4 -> Tensor4;
  activate : Tensor4 -> Tensor4;
  inplace : bool
}.

Definition call_conv (m : ConvModule) (x : Tensor4) (act : bool) : Tensor4 :=
  let y := conv_norm m x in
  if act then activate m y else y.

Section Detector.
Context `{Framework}.
Local Open Scope R_scope.

(** The GFL head ([bbox_head]) of a detector. *)
Record Head := {
  stacked_convs : nat;
  cls_convs : list ConvModule;
  reg_convs : list ConvModule;
  gfl_cls : Tensor4 -> Tensor4;
  gfl_reg : Tensor4 -> Tensor4;
  scales : list (Tensor4 -> Tensor4);
  cls_out_channels : nat;
  reg_max : nat;
  num_levels : nat;                     (* prior_generator.num_levels *)
  strides : list Stride;                (* prior_generator.strides *)
  get_anchors : list (nat * nat) -> ImgMetas -> list RawAnchors * ValidFlags;
  get_targets :
    list RawAnchors -> ValidFlags -> GtInstances -> ImgMetas -> GtInstances ->
    list Anchors * list Labels * list Tensor2 * list BboxTargets
    * list BboxWeights * R;
  loss_by_feat_single :
    Anchors -> Tensor4 -> Tensor4 -> Labels -> Tensor2 -> BboxTargets ->
    Stride -> R -> R * R * R * R
}.

(** A single-stage detector: feature extractor (backbone and neck) and
    head. *)
Record Net := {
  extract_feat : Image -> list Tensor4;
  bbox_head : Head
}.

(** The [CrossKDGFL] object: the student is the detector itself, the
    teacher is owned by it. *)
Record CrossKDGFL := {
  student : Net;
  teacher : Net;
  reused_teacher_head_idx : nat;
  with_feat_distill : bool;
  loss_cls_kd : Tensor2 -> Tensor2 -> Tensor1 -> R -> R;
  loss_reg_kd : Tensor2 -> Tensor2 -> Tensor1 -> R -> R;
  loss_feat_kd : Tensor4 -> Tensor4 -> R
}.

(** The [module] argument of [forward_crosskd_single]: a reference to the
    detector itself or to its teacher. *)
Inductive ModuleRef := Self | Teacher.

Definition deref (m : ModuleRef) (self : CrossKDGFL) : Net :=
  match m with
  | Self => student self
  | Teacher => teacher self
  end.

Local Abbreviation Method := (M CrossKDGFL).

(** One pass of the loops at lines 74-78 and 79-83: the running feature
    and the held feature after the convs of [convs], the first of which
    has index [i].  Tensors are values here, and this loop is where the
    source has two names for one tensor while it is written: the
    assignment [cls_feat_hold = cls_feat] copies nothing, so
    [cls_feat_hold] names the tensor that [cls_conv.activate] receives on
    the next line, and an activation that works in place overwrites what
    is held.  Nothing writes that tensor afterwards: the next conv
    computes into a tensor of its own, and [x] is never written. *)
Fixpoint conv_loop (idx : nat) (convs : list ConvModule) (i : nat)
    (feat hold : Tensor4) : Tensor4 * Tensor4 :=
  match convs with
  | [] => (feat, hold)
  | conv :: rest =>
      let feat := call_conv conv feat false in
      let held := (i + 1 =? idx)%nat in
      let hold := if held then feat else hold in
      let feat := activate conv feat in
      let hold := if held && inplace conv then feat else hold in
      conv_loop idx rest (S i) feat hold
  end.

(** [forward_crosskd_single], lines 70-86.  [.float()] changes the
    precision only and is the identity here. *)
Definition forward_crosskd_single (x : Tensor4) (scale : Tensor4 -> Tensor4)
    (module : ModuleRef) : Method (Tensor4 * Tensor4 * Tensor4 * Tensor4) :=
  self ← get;
  let head := bbox_head (deref module self) in
  let idx := reused_teacher_head_idx self in
  let '(cls_feat, cls_feat_hold) := conv_loop idx (cls_convs head) 0 x x in
  let '(reg_feat, reg_feat_hold) := conv_loop idx (reg_convs head) 0 x x in
  let cls_score := gfl_cls head cls_feat in
  let bbox_pred := scale (gfl_reg head reg_feat) in
  mret (cls_score, bbox_pred, cls_feat_hold, reg_feat_hold).

(** The loop at lines 99-101 over [i] in [is]. *)
Fixpoint reuse_loop (head : Head) (idxs : list nat) (cls_feat reg_feat : Tensor4)
    : Res (Tensor4 * Tensor4) :=
  match idxs with
  | [] => Ok (cls_feat, reg_feat)
  | i :: rest =>
      cls_conv ← index (cls_convs head) i;
      let cls_feat := call_conv cls_conv cls_feat true in
      reg_conv ← index (reg_convs head) i;
      let reg_feat := call_conv reg_conv reg_feat true in
      reuse_loop head rest cls_feat reg_feat
  end.

(** [range(a, b)] *)
Definition range (a b : nat) : list nat := seq a (b - a).

(** [reuse_teacher_head], lines 88-104 *)
Definition reuse_teacher_head (tea_cls_feat tea_reg_feat stu_cls_feat
    stu_reg_feat : Tensor4) (scale : Tensor4 -> Tensor4)
    : Method (Tensor4 * Tensor4) :=
  self ← get;
  reused_cls_feat ← lift (align_scale stu_cls_feat tea_cls_feat);
  reused_reg_feat ← lift (align_scale stu_reg_feat tea_reg_feat);
  let '(reused_cls_feat, reused_reg_feat) :=
    if (reused_teacher_head_idx self =? 0)%nat
    then (reused_cls_feat, reused_reg_feat)
    else (relu reused_cls_feat, relu reused_reg_feat) in
  let module := bbox_head (teacher self) in
  '(reused_cls_feat, reused_reg_feat) ←
    lift (reuse_loop module
            (range (reused_teacher_head_idx self) (stacked_convs module))
            reused_cls_feat reused_reg_feat);
  let reused_cls_score := gfl_cls module reused_cls_feat in
  let reused_bbox_pred := scale (gfl_reg module reused_reg_feat) in
  mret (reused_cls_score, reused_bbox_pred).

(** [pred_mimicking_loss_single], lines 230-259 *)
Definition pred_mimicking_loss_single (tea_cls_score tea_bbox_pred
    reused_cls_score reused_bbox_pred : Tensor4) (label_weights : Tensor2)
    (avg_factor : R) : Method (R * R * R) :=
  self ← get;
  let K := cls_out_channels (bbox_head (student self)) in
  tea_cls_score ← lift (reshape_cols K (flatten4 (permute_0231 tea_cls_score)));
  reused_cls_score ←
    lift (reshape_cols K (flatten4 (permute_0231 reused_cls_score)));
  let label_weights := concat label_weights in
  let loss_cls_kd_ :=
    loss_cls_kd self reused_cls_score tea_cls_score label_weights avg_factor in
  let reg_max_ := reg_max (bbox_head (student self)) in
  tea_bbox_pred ←
    lift (reshape_cols (reg_max_ + 1) (flatten4 (permute_0231 tea_bbox_pred)));
  reused_bbox_pred ←
    lift (reshape_cols (reg_max_ + 1)
            (flatten4 (permute_0231 reused_bbox_pred)));
  let reg_weights := map (fun row => sigmoid (row_max row)) tea_cls_score in
  reg_weights ← lift (mask_zero reg_weights label_weights);
  let loss_reg_kd_ :=
    loss_reg_kd self reused_bbox_pred tea_bbox_pred (expand4 reg_weights) 4 in
  mret (loss_cls_kd_, loss_reg_kd_, sum reg_weights).

(** The local variables of [loss_by_feat] that the normalisation is about,
    next to the dictionary it returns. *)
Record LossTrace := {
  tr_new_avg_factor : R;
  tr_kd_avg_factor : R;
  tr_losses : gmap string (list R)
}.

(** [loss_by_feat], lines 121-228, returning its locals as well. *)
Definition loss_by_feat_trace (tea_cls_scores tea_bbox_preds tea_feats
    cls_scores bbox_preds feats reused_cls_scores reused_bbox_preds
    : list Tensor4) (batch_gt_instances : GtInstances)
    (batch_img_metas : ImgMetas) (batch_gt_instances_ignore : GtInstances)
    : Method LossTrace :=
  self ← get;
  let head := bbox_head (student self) in
  let featmap_sizes :=
    map (fun featmap => let '(_, _, h, w) := size4 featmap in (h, w))
        cls_scores in
  if negb (length featmap_sizes =? num_levels head)%nat
  then raise AssertionError else
  _ ← lift (index cls_scores 0);
  let '(anchor_list, valid_flag_list) :=
    get_anchors head featmap_sizes batch_img_metas in
  let '(anchor_list, labels_list, label_weights_list, bbox_targets_list,
        bbox_weights_list, avg_factor) :=
    get_targets head anchor_list valid_flag_list batch_gt_instances
                batch_img_metas batch_gt_instances_ignore in
  let avg_factor := reduce_mean avg_factor in
  '(losses_cls, losses_bbox, losses_dfl, new_avg_factor) ←
    multi_apply unzip4
      (fun '(anchors, (cls_score, (bbox_pred, (labels, (label_weights,
              (bbox_targets, stride)))))) =>
         mret (loss_by_feat_single head anchors cls_score bbox_pred labels
                 label_weights bbox_targets stride avg_factor))
      (zip anchor_list (zip cls_scores (zip bbox_preds (zip labels_list
         (zip label_weights_list (zip bbox_targets_list (strides head)))))));
  let new_avg_factor := sum new_avg_factor in
  let new_avg_factor := Rmax (reduce_mean new_avg_factor) 1 in
  let losses_bbox := map (fun x => x / new_avg_factor) losses_bbox in
  let losses_dfl := map (fun x => x / new_avg_factor) losses_dfl in
  let losses : gmap string (list R) :=
    <["loss_dfl" := losses_dfl]>
      (<["loss_bbox" := losses_bbox]> (<["loss_cls" := losses_cls]> ∅)) in
  '(losses_cls_kd, losses_reg_kd, kd_avg_factor) ←
    multi_apply unzip3
      (fun '(tea_cls_score, (tea_bbox_pred, (reused_cls_score,
              (reused_bbox_pred, label_weights)))) =>
         pred_mimicking_loss_single tea_cls_score tea_bbox_pred
           reused_cls_score reused_bbox_pred label_weights avg_factor)
      (zip tea_cls_scores (zip tea_bbox_preds (zip reused_cls_scores
         (zip reused_bbox_preds label_weights_list))));
  let kd_avg_factor := sum kd_avg_factor in
  let losses_reg_kd := map (fun x => x / kd_avg_factor) losses_reg_kd in
  let losses :=
    <["loss_reg_kd" := losses_reg_kd]>
      (<["loss_cls_kd" := losses_cls_kd]> losses) in
  let losses :=
    if with_feat_distill self
    then
      let losses_feat_kd :=
        map (fun '(feat, tea_feat) => loss_feat_kd self feat tea_feat)
            (zip feats tea_feats) in
      <["loss_feat_kd" := losses_feat_kd]> losses
    else losses in
  mret {| tr_new_avg_factor := new_avg_factor;
          tr_kd_avg_factor := kd_avg_factor;
          tr_losses := losses |}.

Definition loss_by_feat (tea_cls_scores tea_bbox_preds tea_feats
    cls_scores bbox_preds feats reused_cls_scores reused_bbox_preds
    : list Tensor4) (batch_gt_instances : GtInstances)
    (batch_img_metas : ImgMetas) (batch_gt_instances_ignore : GtInstances)
    : Method (gmap string (list R)) :=
  tr ← loss_by_feat_trace tea_cls_scores tea_bbox_preds tea_feats
         cls_scores bbox_preds feats reused_cls_scores reused_bbox_preds
         batch_gt_instances batch_img_metas batch_gt_instances_ignore;
  mret (tr_losses tr).

(** The values [loss] hands to [loss_by_feat], lines 41-60. *)
Record Forwarded := {
  fw_tea_x : list Tensor4;
  fw_tea_cls_scores : list Tensor4;
  fw_tea_bbox_preds : list Tensor4;
  fw_stu_x : list Tensor4;
  fw_stu_cls_scores : list Tensor4;
  fw_stu_bbox_preds : list Tensor4;
  fw_reused_cls_scores : list Tensor4;
  fw_reused_bbox_preds : list Tensor4
}.

(** [loss], lines 41-55: the three forward passes. *)
Definition loss_forward (batch_inputs : Image) : Method Forwarded :=
  self ← get;
  let tea_x := extract_feat (teacher self) batch_inputs in
  '(tea_cls_scores, tea_bbox_preds, tea_cls_hold, tea_reg_hold) ←
    multi_apply unzip4
      (fun '(x, scale) => forward_crosskd_single x scale Teacher)
      (zip tea_x (scales (bbox_head (teacher self))));
  self ← get;
  let stu_x := extract_feat (student self) batch_inputs in
  '(stu_cls_scores, stu_bbox_preds, stu_cls_hold, stu_reg_hold) ←
    multi_apply unzip4
      (fun '(x, scale) => forward_crosskd_single x scale Self)
      (zip stu_x (scales (bbox_head (student self))));
  self ← get;
  '(reused_cls_scores, reused_bbox_preds) ←
    multi_apply unzip2
      (fun '(tea_cls_feat, (tea_reg_feat, (stu_cls_feat, (stu_reg_feat,
              scale)))) =>
         reuse_teacher_head tea_cls_feat tea_reg_feat stu_cls_feat
           stu_reg_feat scale)
      (zip tea_cls_hold (zip tea_reg_hold (zip stu_cls_hold (zip stu_reg_hold
         (scales (bbox_head (teacher self)))))));
  mret {| fw_tea_x := tea_x;
          fw_tea_cls_scores := tea_cls_scores;
          fw_tea_bbox_preds := tea_bbox_preds;
          fw_stu_x := stu_x;
          fw_stu_cls_scores := stu_cls_scores;
          fw_stu_bbox_preds := stu_bbox_preds;
          fw_reused_cls_scores := reused_cls_scores;
          fw_reused_bbox_preds := reused_bbox_preds |}.

(** [loss], lines 22-68 *)
Definition loss (batch_inputs : Image) (batch_data_samples : Samples)
    : Method (gmap string (list R)) :=
  fw ← loss_forward batch_inputs;
  let '(batch_gt_instances, batch_gt_instances_ignore, batch_img_metas) :=
    unpack_gt_instances batch_data_samples in
  loss_by_feat (fw_tea_cls_scores fw) (fw_tea_bbox_preds fw) (fw_tea_x fw)
    (fw_stu_cls_scores fw) (fw_stu_bbox_preds fw) (fw_stu_x fw)
    (fw_reused_cls_scores fw) (fw_reused_bbox_preds fw)
    batch_gt_instances batch_img_metas batch_gt_instances_ignore.

End Detector.

(** ** Vocabulary of the statements *)

Section Vocabulary.
Context `{Framework}.

(** [x] is a well-formed tensor of shape (N, C, H, W). *)
Definition shape4 (N C H W : nat) (x : Tensor4) : Prop :=
  length x = N /\
  Forall (fun s => length s = C /\
    Forall (fun ch => length ch = H /\
      Forall (fun row => length row = W) ch) s) x.

(** The entries of channel [c], over the batch and all positions: the row
    of the (C, N*H*W) view that per-channel statistics are taken on. *)
Definition channel (c : nat) (x : Tensor4) : Tensor1 :=
  concat (map (fun s => concat (nth c s [])) x).

(** The score vectors of a (N, K, H, W) tensor, one per location, in the
    order (n, h, w). *)
Definition locations (x : Tensor4) : Tensor2 :=
  let '(_, _, H, W) := size4 x in
  flat_map (fun s =>
    flat_map (fun h =>
      map (fun w => map (fun ch => nth w (nth h ch []) 0%R) s) (seq 0 W))
      (seq 0 H)) x.

(** A stack of conv modules applied in order, each with its activation. *)
Definition run_convs (convs : list ConvModule) (x : Tensor4) : Tensor4 :=
  fold_left (fun feat conv => call_conv conv feat true) convs x.

(** The rest of a head's classification branch, resumed on [feat] after
    conv layer number [idx] with a ReLU in front (nothing precedes
    layer 1, so for [idx = 0] the whole branch is run on [feat]). *)
Definition resume_cls (head : Head) (idx : nat) (feat : Tensor4) : Tensor4 :=
  gfl_cls head
    (run_convs (skipn idx (cls_convs head))
       (if (idx =? 0)%nat then feat else relu feat)).

(** The same for the regression branch, with the level's [scale]. *)
Definition resume_reg (head : Head) (idx : nat) (scale : Tensor4 -> Tensor4)
    (feat : Tensor4) : Tensor4 :=
  scale (gfl_reg head
    (run_convs (skipn idx (reg_convs head))
       (if (idx =? 0)%nat then feat else relu feat))).

(** What a name for the output [pre] of [conv(x, activate=False)] reads
    once [conv.activate] has been called on that tensor. *)
Definition held_output (conv : ConvModule) (pre : Tensor4) : Tensor4 :=
  if inplace conv then activate conv pre else pre.

(** The activated output of a conv layer, from what is held of it. *)
Definition activated (conv : ConvModule) (hold : Tensor4) : Tensor4 :=
  if inplace conv then hold else activate conv hold.

(** What is held of conv layer number [idx] (counted from 1) of a stack
    on input [x], once the stack has been run. *)
Definition held_at (convs : list ConvModule) (idx : nat) (x : Tensor4)
    : option Tensor4 :=
  match idx with
  | O => None
  | S k =>
      match nth_error convs k with
      | Some conv =>
          Some (held_output conv
                  (conv_norm conv (run_convs (firstn k convs) x)))
      | None => None
      end
  end.

(** The keys of the supervised and the prediction-mimicking terms. *)
Definition five_keys : gset string :=
  {[ "loss_cls"; "loss_bbox"; "loss_dfl"; "loss_cls_kd"; "loss_reg_kd" ]}.

(** A method that hands the detector back as it received it. *)
Definition read_only {A} (m : M CrossKDGFL A) : Prop :=
  forall self, snd (m self) = self.

(** The targets [loss_by_feat] obtains from the student's head. *)
Definition targets_of (self : CrossKDGFL) (cls_scores : list Tensor4)
    (gt : GtInstances) (metas : ImgMetas) (ign : GtInstances) :=
  let head := bbox_head (student self) in
  let featmap_sizes :=
    map (fun featmap => let '(_, _, h, w) := size4 featmap in (h, w))
        cls_scores in
  let '(anchor_list, valid_flag_list) :=
    get_anchors head featmap_sizes metas in
  get_targets head anchor_list valid_flag_list gt metas ign.

(** What [loss_by_feat] feeds to and gets from the per-level losses. *)
Definition label_weights_of (self : CrossKDGFL) (cls_scores : list Tensor4)
    (gt : GtInstances) (metas : ImgMetas) (ign : GtInstances) : list Tensor2 :=
  let '(_, _, label_weights_list, _, _, _) :=
    targets_of self cls_scores gt metas ign in
  label_weights_list.

Definition avg_factor_of (self : CrossKDGFL) (cls_scores : list Tensor4)
    (gt : GtInstances) (metas : ImgMetas) (ign : GtInstances) : R :=
  let '(_, _, _, _, _, avg_factor) :=
    targets_of self cls_scores gt metas ign in
  reduce_mean avg_factor.

(** The supervised terms of the levels: [loss_by_feat_single] of the
    student's head on the student's own predictions. *)
Definition supervised_levels (self : CrossKDGFL)
    (cls_scores bbox_preds : list Tensor4)
    (gt : GtInstances) (metas : ImgMetas) (ign : GtInstances)
    : list (R * R * R * R) :=
  let head := bbox_head (student self) in
  let '(anchor_list, labels_list, label_weights_list, bbox_targets_list,
        _, avg_factor) := targets_of self cls_scores gt metas ign in
  map (fun '(anchors, (cls_score, (bbox_pred, (labels, (label_weights,
              (bbox_targets, stride)))))) =>
         loss_by_feat_single head anchors cls_score bbox_pred labels
           label_weights bbox_targets stride (reduce_mean avg_factor))
      (zip anchor_list (zip cls_scores (zip bbox_preds (zip labels_list
         (zip label_weights_list (zip bbox_targets_list (strides head))))))).

(** [k] is what [pred_mimicking_loss_single] returns on one level. *)
Definition kd_level (self : CrossKDGFL) (avg_factor : R)
    (level : Tensor4 * (Tensor4 * (Tensor4 * (Tensor4 * Tensor2))))
    (k : R * R * R) : Prop :=
  let '(tea_cls_score, (tea_bbox_pred, (reused_cls_score,
         (reused_bbox_pred, label_weights)))) := level in
  pred_mimicking_loss_single tea_cls_score tea_bbox_pred reused_cls_score
    reused_bbox_pred label_weights avg_factor self = (Ok k, self).

(** The locals and the dictionary [loss_by_feat] builds from the per-level
    results [sup] and [kd]. *)
Definition assemble (self : CrossKDGFL) (sup : list (R * R * R * R))
    (kd : list (R * R * R)) (feats tea_feats : list Tensor4) : LossTrace :=
  let naf := Rmax (reduce_mean (sum (map snd sup))) 1 in
  let kaf := sum (map snd kd) in
  let five : gmap string (list R) :=
    <["loss_reg_kd" := map (fun k => (snd (fst k) / kaf)%R) kd]>
    (<["loss_cls_kd" := map (fun k => fst (fst k)) kd]>
    (<["loss_dfl" := map (fun t => (snd (fst t) / naf)%R) sup]>
    (<["loss_bbox" := map (fun t => (snd (fst (fst t)) / naf)%R) sup]>
    (<["loss_cls" := map (fun t => fst (fst (fst t))) sup]> ∅)))) in
  {| tr_new_avg_factor := naf;
     tr_kd_avg_factor := kaf;
     tr_losses :=
       if with_feat_distill self
       then <["loss_feat_kd" :=
                map (fun '(feat, tea_feat) => loss_feat_kd self feat tea_feat)
                    (zip feats tea_feats)]> five
       else five |}.

(** [fw] is what the three forward passes of [loss] produce on [inp]:
    [tea_fwd] and [stu_fwd] are the per-level results of
    [forward_crosskd_single] on the teacher and on the student, [reused]
    those of [reuse_teacher_head] on the held features of both. *)
Definition forwarded_by (self : CrossKDGFL) (inp : Image) (fw : Forwarded)
    : Prop :=
  exists (tea_fwd stu_fwd : list (Tensor4 * Tensor4 * Tensor4 * Tensor4))
         (reused : list (Tensor4 * Tensor4)),
    fw_tea_x fw = extract_feat (teacher self) inp /\
    fw_stu_x fw = extract_feat (student self) inp /\
    Forall2 (fun '(x, scale) r =>
               forward_crosskd_single x scale Teacher self = (Ok r, self))
      (zip (fw_tea_x fw) (scales (bbox_head (teacher self)))) tea_fwd /\
    Forall2 (fun '(x, scale) r =>
               forward_crosskd_single x scale Self self = (Ok r, self))
      (zip (fw_stu_x fw) (scales (bbox_head (student self)))) stu_fwd /\
    Forall2 (fun '(tea_cls_feat, (tea_reg_feat, (stu_cls_feat,
                   (stu_reg_feat, scale)))) r =>
               reuse_teacher_head tea_cls_feat tea_reg_feat stu_cls_feat
                 stu_reg_feat scale self = (Ok r, self))
      (zip (map (fun r => snd (fst r)) tea_fwd)
         (zip (map snd tea_fwd)
            (zip (map (fun r => snd (fst r)) stu_fwd)
               (zip (map snd stu_fwd)
                  (scales (bbox_head (teacher self))))))) reused /\
    fw_tea_cls_scores fw = map (fun r => fst (fst (fst r))) tea_fwd /\
    fw_tea_bbox_preds fw = map (fun r => snd (fst (fst r))) tea_fwd /\
    fw_stu_cls_scores fw = map (fun r => fst (fst (fst r))) stu_fwd /\
    fw_stu_bbox_preds fw = map (fun r => snd (fst (fst r))) stu_fwd /\
    fw_reused_cls_scores fw = map fst reused /\
    fw_reused_bbox_preds fw = map snd reused.

End Vocabulary.

(** What [align_scale] does to one channel: the student's entries are
    centred and divided by their deviation plus [eps], then scaled and
    shifted by the teacher's deviation and mean. *)
Definition aligned_row (stu_row tea_row : list R) : list R :=
  map (fun v => (v * std tea_row + mean tea_row)%R)
      (map (fun v => ((v - mean stu_row) / (std stu_row + eps))%R) stu_row).

(** ** A small detector to run the methods on *)

Module Demo.
Local Open Scope R_scope.

(** A single training process, with no data beyond the tensors. *)
#[global] Instance framework : Framework := {|
  Image := unit; Samples := unit; GtInstances := unit; ImgMetas := unit;
  RawAnchors := unit; ValidFlags := unit; Anchors := unit; Labels := unit;
  BboxTargets := unit; BboxWeights := unit; Stride := unit;
  unpack_gt_instances := fun _ => (tt, tt, tt);
  reduce_mean := fun x => x
|}.

(** A conv module whose activation returns a new tensor. *)
Definition conv : ConvModule :=
  {| conv_norm := fun x => map (map (map (map (fun v => v - 1)))) x;
     activate := relu;
     inplace := false |}.

(** The same module with the framework's default activation, which works
    in place. *)
Definition conv_inplace : ConvModule :=
  {| conv_norm := conv_norm conv;
     activate := relu;
     inplace := true |}.

(** One level, one class, [reg_max = 0], three anchors of which the last
    is ignored. *)
Definition head : Head :=
  {| stacked_convs := 2;
     cls_convs := [conv; conv];
     reg_convs := [conv; conv];
     gfl_cls := fun x => x;
     gfl_reg := fun x => map (fun s => s ++ s ++ s ++ s) x;
     scales := [fun x => x];
     cls_out_channels := 1;
     reg_max := 0;
     num_levels := 1;
     strides := [tt];
     get_anchors := fun _ _ => ([tt], tt);
     get_targets := fun _ _ _ _ _ => ([tt], [tt], [[[1; 1; 0]]], [tt], [tt], 2);
     loss_by_feat_single := fun _ _ _ _ _ _ _ _ => (1, 2, 3, 4) |}.

Definition net (x : Tensor4) : Net :=
  {| extract_feat := fun _ => [x]; bbox_head := head |}.

Definition stu_feat : Tensor4 := [[[[-1; 0; 1]]]].
Definition tea_feat : Tensor4 := [[[[-2; 0; 2]]]].

Definition detector (idx : nat) (feat_distill : bool) : CrossKDGFL :=
  {| student := net stu_feat;
     teacher := net tea_feat;
     reused_teacher_head_idx := idx;
     with_feat_distill := feat_distill;
     loss_cls_kd := fun _ _ _ _ => 1;
     loss_reg_kd := fun _ _ _ _ => 1;
     loss_feat_kd := fun _ _ => 1 |}.

(** Predictions of one level: scores of shape (1, 1, 1, 3) and box
    distributions of shape (1, 4, 1, 3). *)
Definition tea_score : Tensor4 := [[[[1; 2; 3]]]].
Definition reused_score : Tensor4 := [[[[0; 1; 2]]]].
Definition tea_box : Tensor4 := [[[[1; 2; 3]]; [[1; 2; 3]]; [[1; 2; 3]]; [[1; 2; 3]]]].
Definition reused_box : Tensor4 := [[[[0; 1; 2]]; [[0; 1; 2]]; [[0; 1; 2]]; [[0; 1; 2]]]].

End Demo.

(** ** Vocabulary of the further properties *)

(** A tensor with every entry replaced by its image under [g c], [c] the
    channel of the entry; positions are kept. *)
Definition map_channels (g : nat -> R -> R) (x : Tensor4) : Tensor4 :=
  map (fun s => imap (fun c ch => map (map (g c)) ch) s) x.

(** What [align_scale] makes of an entry [v] of channel [c]. *)
Definition align_entry (stu tea : Tensor4) (c : nat) (v : R) : R :=
  ((v - mean (channel c stu)) / (std (channel c stu) + eps)
   * std (channel c tea) + mean (channel c tea))%R.

(** The tensor [x] with [b] added to every entry. *)
Definition shift4 (b : R) (x : Tensor4) : Tensor4 :=
  map (map (map (map (fun v => (v + b)%R)))) x.

(** Entry (n, c, h, w) of a tensor. *)
Definition entry (x : Tensor4) (n c h w : nat) : R :=
  nth w (nth h (nth c (nth n x []) []) []) 0%R.

(** More tensors to run the methods on. *)
Module Demo2.
Local Open Scope R_scope.

(** Two channels of three entries each, shape (1, 2, 1, 3). *)
Definition two_channels : Tensor4 := [[[[-1; 0; 1]]; [[5; 5; 5]]]].

(** A teacher feature of shape (1, 2, 1, 3). *)
Definition tea_two_channels : Tensor4 := [[[[0; 2; 4]]; [[1; 2; 3]]]].

(** The teacher feature with the entries of each channel reversed. *)
Definition tea_reversed : Tensor4 := [[[[4; 2; 0]]; [[3; 2; 1]]]].

(** The head of [Demo] with other conv stacks and label weights. *)
Definition head_with (cls reg : list ConvModule) (lw : list (list R)) : Head :=
  {| stacked_convs := 2;
     cls_convs := cls;
     reg_convs := reg;
     gfl_cls := gfl_cls Demo.head;
     gfl_reg := gfl_reg Demo.head;
     scales := scales Demo.head;
     cls_out_channels := 1;
     reg_max := 0;
     num_levels := 1;
     strides := [tt];
     get_anchors := fun _ _ => ([tt], tt);
     get_targets := fun _ _ _ _ _ => ([tt], [tt], [lw], [tt], [tt], 2);
     loss_by_feat_single := fun _ _ _ _ _ _ _ _ => (1, 2, 3, 4) |}.

(** A detector over given teacher and student nets. *)
Definition detector_of (stu tea : Net) (idx : nat) : CrossKDGFL :=
  {| student := stu;
     teacher := tea;
     reused_teacher_head_idx := idx;
     with_feat_distill := false;
     loss_cls_kd := fun _ _ _ _ => 1;
     loss_reg_kd := fun _ _ _ _ => 1;
     loss_feat_kd := fun _ _ => 1 |}.

(** A teacher whose head announces two convs and holds one
    classification conv. *)
Definition short_teacher : Net :=
  {| extract_feat := fun _ => [Demo.tea_feat];
     bbox_head := head_with [Demo.conv] [Demo.conv; Demo.conv] [[1; 1; 0]] |}.

(** A teacher that yields no feature level. *)
Definition no_level_teacher : Net :=
  {| extract_feat := fun _ => []; bbox_head := Demo.head |}.

(** A student whose targets carry label weight zero everywhere. *)
Definition ignored_student : Net :=
  {| extract_feat := fun _ => [Demo.stu_feat];
     bbox_head :=
       head_with [Demo.conv; Demo.conv] [Demo.conv; Demo.conv] [[0; 0; 0]] |}.

(** A net whose head has conv modules with the framework's default
    activation. *)
Definition inplace_net (x : Tensor4) : Net :=
  {| extract_feat := fun _ => [x];
     bbox_head :=
       head_with [Demo.conv_inplace; Demo.conv_inplace]
         [Demo.conv_inplace; Demo.conv_inplace] [[1; 1; 0]] |}.

(** The detector of [Demo] over such nets. *)
Definition inplace_detector (idx : nat) : CrossKDGFL :=
  detector_of (inplace_net Demo.stu_feat) (inplace_net Demo.tea_feat) idx.




End Demo2.

Section MoreVocabulary.
Context `{Framework}.

(** The detector with another [reused_teacher_head_idx]. *)
Definition with_idx (self : CrossKDGFL) (idx : nat) : CrossKDGFL :=
  {| student := student self;
     teacher := teacher self;
     reused_teacher_head_idx := idx;
     with_feat_distill := with_feat_distill self;
     loss_cls_kd := loss_cls_kd self;
     loss_reg_kd := loss_reg_kd self;
     loss_feat_kd := loss_feat_kd self |}.

(** The predictions and label weights of one level have consistent
    shapes: scores with A * K channels for K classes, box distributions
    with a multiple of [reg_max + 1] channels, all over the same batch and
    positions, and one label weight per row of scores. *)
Definition level_shapes (self : CrossKDGFL)
    (level : Tensor4 * (Tensor4 * (Tensor4 * (Tensor4 * Tensor2)))) : Prop :=
  let '(tea_cls_score, (tea_bbox_pred, (reused_cls_score,
         (reused_bbox_pred, label_weights)))) := level in
  let K := cls_out_channels (bbox_head (student self)) in
  let r := reg_max (bbox_head (student self)) in
  exists N A Hh W Cb : nat,
    shape4 N (A * K) Hh W tea_cls_score /\
    shape4 N (A * K) Hh W reused_cls_score /\
    shape4 N (Cb * (r + 1)) Hh W tea_bbox_pred /\
    shape4 N (Cb * (r + 1)) Hh W reused_bbox_pred /\
    0 < N /\ 0 < Hh /\ 0 < A /\ 0 < K /\ 0 < Cb /\
    length (concat label_weights) = N * (Hh * W) * A.

End MoreVocabulary.

(** The outcome [x] of a method is a value, with the object left as [s]. *)
Definition returns {S A} (x : Res A * S) (s : S) : Prop :=
  match x with
  | (Ok _, s') => s' = s
  | (Raise _, _) => False
  end.

(** * Properties *)

(** ** The training configurations *)

(** C10.  Both training configurations set [max_epochs] to 58 and carry
    the same learning-rate schedule: a linear warm-up from factor 0.001
    over iterations 0 to 500, then a decay by 0.1 at epochs 38 and 54. *)
Theorem configs_share_schedule :
  Config.max_epochs Config.our_r50_fpn_ms_2x_coco = 58%Z /\
  Config.max_epochs Config.faster_rcnn_r50_fpn_1x_coco = 58%Z /\
  Config.train_cfg_max_epochs Config.our_r50_fpn_ms_2x_coco = 58%Z /\
  Config.train_cfg_max_epochs Config.faster_rcnn_r50_fpn_1x_coco = 58%Z /\
  Config.param_scheduler Config.our_r50_fpn_ms_2x_coco =
    Config.param_scheduler Config.faster_rcnn_r50_fpn_1x_coco /\
  Config.param_scheduler Config.our_r50_fpn_ms_2x_coco =
    [ Config.LinearLR (1 # 1000) false 0 500;
      Config.MultiStepLR 0 58 true [38%Z; 54%Z] (1 # 10) ] /\
  Config.warmup Config.faster_rcnn_r50_fpn_1x_coco
    = Some ((1 # 1000)%Q, 0%Z, 500%Z) /\
  Config.decay Config.faster_rcnn_r50_fpn_1x_coco
    = Some ((1 # 10)%Q, [38%Z; 54%Z]).
Proof. repeat split; reflexivity. Qed.

(** ** Methods only read the detector *)

Section Frame.
Context `{Framework}.

Lemma read_only_ret {A} (a : A) : read_only (mret a).
Proof. intros s. reflexivity. Qed.

Lemma read_only_get : read_only get.
Proof. intros s. reflexivity. Qed.

Lemma read_only_raise {A} (e : PyErr) : read_only (@raise _ A e).
Proof. intros s. reflexivity. Qed.

Lemma read_only_lift {A} (r : Res A) : read_only (lift r).
Proof. intros s. reflexivity. Qed.

Lemma read_only_bind {A B} (m : M CrossKDGFL A) (k : A -> M CrossKDGFL B) :
  read_only m -> (forall a, read_only (k a)) -> read_only (m ≫= k).
Proof.
  intros Hm Hk s. unfold mbind, M_bind.
  specialize (Hm s). destruct (m s) as [[a|e] s']; simpl in *; subst.
  - apply Hk.
  - reflexivity.
Qed.

Lemma read_only_mapM {A B} (f : A -> M CrossKDGFL B) (l : list A) :
  (forall a, read_only (f a)) -> read_only (mapM f l).
Proof.
  intros Hf. induction l as [|a l IH]; simpl.
  - apply read_only_ret.
  - apply read_only_bind; [apply Hf|]. intros b.
    apply read_only_bind; [apply IH|]. intros bs. apply read_only_ret.
Qed.

Lemma read_only_multi_apply {A B T} (unzip : list B -> T)
    (f : A -> M CrossKDGFL B) (l : list A) :
  (forall a, read_only (f a)) -> read_only (multi_apply unzip f l).
Proof.
  intros Hf. unfold multi_apply.
  apply read_only_bind; [now apply read_only_mapM|].
  intros [|r rs]; [apply read_only_raise | apply read_only_ret].
Qed.

(** An assignment is not read-only: it hands back what it stored. *)
Lemma put_stores (s s' : CrossKDGFL) : snd (put s' s) = s'.
Proof. reflexivity. Qed.

End Frame.

Ltac read_only_step :=
  match goal with
  | |- read_only (mret _) => apply read_only_ret
  | |- read_only get => apply read_only_get
  | |- read_only (raise _) => apply read_only_raise
  | |- read_only (lift _) => apply read_only_lift
  | |- read_only (_ ≫= _) => apply read_only_bind; [|intros ?]
  | |- read_only (multi_apply _ _ _) => apply read_only_multi_apply; intros ?
  | |- read_only (match ?x with _ => _ end) => destruct x
  | |- read_only (if ?x then _ else _) => destruct x
  end.

Section FrameMethods.
Context `{Framework}.

Lemma read_only_forward_crosskd_single x scale module :
  read_only (forward_crosskd_single x scale module).
Proof. unfold forward_crosskd_single. repeat read_only_step. Qed.

Lemma read_only_reuse_teacher_head a b c d scale :
  read_only (reuse_teacher_head a b c d scale).
Proof. unfold reuse_teacher_head. repeat read_only_step. Qed.

Lemma read_only_pred_mimicking_loss_single a b c d lw avg :
  read_only (pred_mimicking_loss_single a b c d lw avg).
Proof. unfold pred_mimicking_loss_single. repeat read_only_step. Qed.

Lemma read_only_loss_by_feat_trace a b c d e f g h gt metas ign :
  read_only (loss_by_feat_trace a b c d e f g h gt metas ign).
Proof.
  unfold loss_by_feat_trace. repeat read_only_step.
  apply read_only_pred_mimicking_loss_single.
Qed.
End FrameMethods.

(** ** Running the monad *)

Section Run.
Context {S : Type}.

Lemma bind_ok {A B} (m : M S A) (k : A -> M S B) s b s' :
  (m ≫= k) s = (Ok b, s') ->
  exists a s1, m s = (Ok a, s1) /\ k a s1 = (Ok b, s').
Proof.
  unfold mbind, M_bind. destruct (m s) as [[a|e] s1]; intros E.
  - eauto.
  - discriminate.
Qed.

Lemma mapM_ok {A B} (f : A -> M S B) (l : list A) s rs s' :
  (forall a s0, snd (f a s0) = s0) ->
  mapM f l s = (Ok rs, s') ->
  s' = s /\ Forall2 (fun a r => f a s = (Ok r, s)) l rs.
Proof.
  intros Hf. revert rs. induction l as [|a l IH]; simpl; intros rs E.
  - inversion E; subst. split; [reflexivity | constructor].
  - apply bind_ok in E as (b & s1 & Ea & E).
    apply bind_ok in E as (bs & s2 & El & E).
    inversion E; subst; clear E.
    pose proof (Hf a s) as Hs. rewrite Ea in Hs. simpl in Hs. subst s1.
    apply IH in El as [-> Hl]. split; [reflexivity|].
    constructor; assumption.
Qed.

Lemma multi_apply_ok {A B T} (unzip : list B -> T) (f : A -> M S B)
    (l : list A) s t s' :
  (forall a s0, snd (f a s0) = s0) ->
  multi_apply unzip f l s = (Ok t, s') ->
  s' = s /\ exists rs, rs <> [] /\ t = unzip rs /\
            Forall2 (fun a r => f a s = (Ok r, s)) l rs.
Proof.
  intros Hf E. unfold multi_apply in E.
  apply bind_ok in E as (rs & s1 & Em & E).
  apply mapM_ok in Em as [-> Hl]; [|assumption].
  destruct rs as [|r rs]; [discriminate|].
  inversion E; subst. split; [reflexivity|].
  exists (r :: rs). split; [discriminate|]. split; [reflexivity | assumption].
Qed.

Lemma Forall2_pure_map {A B} (g : A -> B) (l : list A) rs (s : S) :
  Forall2 (fun a r => (mret (g a) : M S B) s = (Ok r, s)) l rs ->
  rs = map g l.
Proof.
  induction 1 as [|a r l rs E _ IH]; simpl; [reflexivity|].
  inversion E; subst. reflexivity.
Qed.

End Run.

(** ** Sums and the per-location weights *)

Section Weights.
Local Open Scope R_scope.

Lemma fold_left_Rplus_acc (l : list R) (a : R) :
  fold_left Rplus l a = a + fold_left Rplus l 0.
Proof.
  revert a. induction l as [|x l IH]; intros a; simpl.
  - lra.
  - rewrite (IH (a + x)), (IH (0 + x)). lra.
Qed.

Lemma sum_nil : sum [] = 0.
Proof. reflexivity. Qed.

Lemma sum_cons (x : R) (l : list R) : sum (x :: l) = x + sum l.
Proof. unfold sum. simpl. rewrite fold_left_Rplus_acc. lra. Qed.

Lemma sum_app (l1 l2 : list R) : sum (l1 ++ l2) = sum l1 + sum l2.
Proof.
  induction l1 as [|x l1 IH]; simpl.
  - rewrite sum_nil. lra.
  - rewrite !sum_cons, IH. lra.
Qed.

Lemma sum_nonneg (l : list R) : Forall (fun v => 0 <= v) l -> 0 <= sum l.
Proof.
  induction 1 as [|x l Hx _ IH]; [rewrite sum_nil; lra|].
  rewrite sum_cons. lra.
Qed.


Lemma sum_constant (v0 : R) (l : list R) :
  Forall (fun v => v = v0) l -> sum l = INR (length l) * v0.
Proof.
  induction 1 as [|v l -> _ IH].
  - rewrite sum_nil. simpl. lra.
  - rewrite sum_cons, IH. simpl length. rewrite S_INR. lra.
Qed.

Lemma sigmoid_pos (v : R) : 0 < sigmoid v.
Proof.
  unfold sigmoid. pose proof (exp_pos (- v)).
  apply Rdiv_lt_0_compat; lra.
Qed.

Lemma sigmoid_lt_1 (v : R) : sigmoid v < 1.
Proof.
  unfold sigmoid. pose proof (exp_pos (- v)).
  apply Rmult_lt_reg_r with (1 + exp (- v)); [lra|].
  unfold Rdiv. rewrite Rmult_assoc, Rinv_l; lra.
Qed.

Lemma mask_zero_ok (w lw w' : Tensor1) :
  mask_zero w lw = Ok w' ->
  length w = length lw /\
  w' = zip_with (fun wi li => if Req_dec_T li 0 then 0 else wi) w lw.
Proof.
  unfold mask_zero. destruct (Nat.eqb_spec (length w) (length lw)); [|discriminate].
  intros E. injection E as <-. auto.
Qed.

(** Entry [i] of the masked weights. *)
Lemma mask_zero_lookup (w lw w' : Tensor1) (i : nat) (wi li : R) :
  mask_zero w lw = Ok w' ->
  w !! i = Some wi -> lw !! i = Some li ->
  w' !! i = Some (if Req_dec_T li 0 then 0 else wi).
Proof.
  intros E Hw Hl. apply mask_zero_ok in E as [_ ->].
  rewrite lookup_zip_with, Hw. simpl. rewrite Hl. reflexivity.
Qed.

Lemma mask_zero_length (w lw w' : Tensor1) :
  mask_zero w lw = Ok w' -> length w' = length lw /\ length w' = length w.
Proof.
  intros E. apply mask_zero_ok in E as [Hlen ->].
  rewrite length_zip_with. lia.
Qed.

Lemma masked_weights_nonneg (rows : Tensor2) (lw w : Tensor1) :
  mask_zero (map (fun row => sigmoid (row_max row)) rows) lw = Ok w ->
  Forall (fun v => 0 <= v) w.
Proof.
  intros E. apply Forall_lookup. intros i v Hv.
  pose proof (mask_zero_length _ _ _ E) as [Hl1 Hl2].
  rewrite length_map in Hl2.
  assert (Hi : (i < length w)%nat) by (eapply lookup_lt_Some; eauto).
  destruct (lookup_lt_is_Some_2 rows i) as [row Hrow]; [lia|].
  destruct (lookup_lt_is_Some_2 lw i) as [li Hli]; [lia|].
  erewrite mask_zero_lookup in Hv; [| exact E | | exact Hli].
  2:{ rewrite list_lookup_fmap, Hrow. reflexivity. }
  injection Hv as <-. destruct (Req_dec_T li 0); [lra|].
  left. apply sigmoid_pos.
Qed.


End Weights.

(** ** Blocks, rows and maxima *)

Section Layout.
Local Open Scope R_scope.

Lemma chunks_S {A} (k m : nat) (l : list A) :
  chunks (S k) m l = firstn m l :: chunks k m (skipn m l).
Proof.
  unfold chunks. simpl. f_equal.
  rewrite <- seq_shift, map_map. apply map_ext. intros i.
  rewrite skipn_skipn. do 2 f_equal. lia.
Qed.

Lemma chunks_concat {A} (m : nat) (bs : list (list A)) :
  Forall (fun b => length b = m) bs ->
  chunks (length bs) m (concat bs) = bs.
Proof.
  induction 1 as [|b bs Hb _ IH]; [reflexivity|].
  simpl length. rewrite chunks_S. simpl concat. subst m.
  rewrite take_app_length, drop_app_length, IH. reflexivity.
Qed.

Lemma concat_chunks {A} (k m : nat) (l : list A) :
  length l = (k * m)%nat -> concat (chunks k m l) = l.
Proof.
  revert l. induction k as [|k IH]; intros l Hl.
  - destruct l; [reflexivity | discriminate].
  - rewrite chunks_S. simpl. rewrite IH.
    + apply firstn_skipn.
    + rewrite length_skipn. lia.
Qed.

Lemma chunks_length {A} (k m : nat) (l : list A) :
  length (chunks k m l) = k.
Proof. unfold chunks. rewrite length_map, length_seq. reflexivity. Qed.

Lemma chunks_Forall_length {A} (k m : nat) (l : list A) :
  length l = (k * m)%nat -> Forall (fun b => length b = m) (chunks k m l).
Proof.
  revert l. induction k as [|k IH]; intros l Hl.
  - constructor.
  - rewrite chunks_S. constructor.
    + rewrite length_firstn. lia.
    + apply IH. rewrite length_skipn. lia.
Qed.

Lemma length_concat_uniform {A} (m : nat) (bs : list (list A)) :
  Forall (fun b => length b = m) bs ->
  length (concat bs) = (length bs * m)%nat.
Proof.
  induction 1 as [|b bs Hb _ IH]; [reflexivity|].
  simpl. rewrite length_app, IH, Hb. reflexivity.
Qed.

Lemma reshape_cols_concat (K : nat) (bs : Tensor2) :
  (0 < K)%nat -> Forall (fun b => length b = K) bs ->
  reshape_cols K (concat bs) = Ok bs.
Proof.
  intros HK Hbs. unfold reshape_cols.
  rewrite (length_concat_uniform K bs Hbs).
  destruct (Nat.eqb_spec K 0); [lia|].
  rewrite Nat.Div0.mod_mul, Nat.eqb_refl, Nat.div_mul by lia.
  rewrite chunks_concat by assumption. reflexivity.
Qed.

Lemma reshape_rows_concat (C : nat) (rows : Tensor2) (m : nat) :
  (0 < C)%nat -> length rows = C -> Forall (fun b => length b = m) rows ->
  reshape_rows C (concat rows) = Ok rows.
Proof.
  intros HC Hlen Hrows. unfold reshape_rows.
  rewrite (length_concat_uniform m rows Hrows), Hlen.
  destruct (Nat.eqb_spec C 0); [lia|].
  rewrite (Nat.mul_comm C m), Nat.Div0.mod_mul, Nat.eqb_refl, Nat.div_mul by lia.
  rewrite <- Hlen, chunks_concat by assumption. reflexivity.
Qed.

Lemma reshape_cols_ok (K : nat) (flat : Tensor1) (rows : Tensor2) :
  reshape_cols K flat = Ok rows ->
  (0 < K)%nat /\ Forall (fun b => length b = K) rows /\ concat rows = flat.
Proof.
  unfold reshape_cols. destruct (Nat.eqb_spec K 0); [discriminate|].
  destruct (Nat.eqb_spec (length flat mod K) 0) as [Hm|]; [|discriminate].
  intros E. injection E as <-.
  assert (Hl : length flat = (length flat / K * K)%nat).
  { pose proof (Nat.div_mod_eq (length flat) K). lia. }
  split; [lia|]. split.
  - apply chunks_Forall_length. exact Hl.
  - apply concat_chunks. exact Hl.
Qed.

Lemma fold_left_Rmax_spec (l : list R) (a : R) :
  In (fold_left Rmax l a) (a :: l) /\
  Forall (fun v => v <= fold_left Rmax l a) (a :: l).
Proof.
  revert a. induction l as [|x l IH]; intros a; simpl.
  - split; [auto | constructor; [lra | constructor]].
  - destruct (IH (Rmax a x)) as [Hin Hall]. split.
    + destruct Hin as [E | Hin]; [|auto].
      rewrite <- E. unfold Rmax. destruct (Rle_dec a x); auto.
    + inversion Hall as [|? ? Hm Hl]; subst.
      pose proof (Rmax_l a x). pose proof (Rmax_r a x).
      constructor; [lra|]. constructor; [lra | assumption].
Qed.

(** [row_max] of a non-empty row is its largest entry. *)
Lemma row_max_spec (row : Tensor1) :
  row <> [] ->
  In (row_max row) row /\ Forall (fun v => v <= row_max row) row.
Proof.
  destruct row as [|v vs]; [congruence|]. intros _.
  apply fold_left_Rmax_spec.
Qed.

Lemma expand4_length (w : Tensor1) : length (expand4 w) = (4 * length w)%nat.
Proof.
  unfold expand4. induction w as [|v w IH]; simpl; [reflexivity|]. lia.
Qed.

Lemma expand4_lookup (w : Tensor1) (i j : nat) :
  (j < 4)%nat -> expand4 w !! (4 * i + j)%nat = w !! i.
Proof.
  intros Hj. revert i. induction w as [|v w IH]; intros i.
  - reflexivity.
  - destruct i as [|i].
    + destruct j as [|[|[|[|j]]]]; try reflexivity. lia.
    + replace (4 * S i + j)%nat with (4 + (4 * i + j))%nat by lia.
      simpl. apply IH.
Qed.

Lemma flatten4_locations (x : Tensor4) :
  flatten4 (permute_0231 x) = concat (locations x).
Proof.
  unfold flatten4, permute_0231, locations.
  destruct (size4 x) as [[[N C] Hh] W].
  induction x as [|s x IH]; [reflexivity|].
  simpl. rewrite concat_app, IH. f_equal. clear IH.
  induction (seq 0 Hh) as [|h hs IHh]; [reflexivity|].
  simpl. rewrite concat_app, IHh. reflexivity.
Qed.

Lemma locations_length (K : nat) (x : Tensor4) :
  Forall (fun s => length s = K) x ->
  Forall (fun b => length b = K) (locations x).
Proof.
  unfold locations. destruct (size4 x) as [[[N C] Hh] W].
  intros Hx. apply Forall_forall. intros b Hb.
  apply list_elem_of_In, in_flat_map in Hb as (s & Hs & Hb).
  apply in_flat_map in Hb as (h & _ & Hb).
  apply in_map_iff in Hb as (w & <- & _).
  rewrite length_map. rewrite Forall_forall in Hx. apply Hx.
  apply list_elem_of_In. exact Hs.
Qed.

(** With K score channels, row [i] of the (-1, K) view is the score vector
    of location [i]. *)
Lemma reshape_cols_locations (K : nat) (x : Tensor4) :
  (0 < K)%nat -> Forall (fun s => length s = K) x ->
  reshape_cols K (flatten4 (permute_0231 x)) = Ok (locations x).
Proof.
  intros HK Hx. rewrite flatten4_locations.
  apply reshape_cols_concat; [exact HK | now apply locations_length].
Qed.

End Layout.

(** ** Per-channel statistics *)

Section Statistics.
Local Open Scope R_scope.

Lemma sum_map_affine (a b : R) (l : list R) :
  sum (map (fun v => a * v + b) l) = a * sum l + b * INR (length l).
Proof.
  induction l as [|x l IH].
  - simpl. rewrite sum_nil. lra.
  - change (map (fun v => a * v + b) (x :: l))
      with ((a * x + b) :: map (fun v => a * v + b) l).
    rewrite !sum_cons, IH. simpl length. rewrite S_INR. lra.
Qed.

Lemma sum_map_scal (k : R) (g : R -> R) (l : list R) :
  sum (map (fun v => k * g v) l) = k * sum (map g l).
Proof.
  induction l as [|x l IH].
  - simpl. rewrite sum_nil. lra.
  - simpl map. rewrite !sum_cons, IH. lra.
Qed.

Lemma sum_map_ext (f g : R -> R) (l : list R) :
  (forall v, f v = g v) -> sum (map f l) = sum (map g l).
Proof. intros E. f_equal. apply map_ext. exact E. Qed.

Lemma sum_squares_nonneg (m : R) (l : list R) :
  0 <= sum (map (fun v => (v - m) * (v - m)) l).
Proof.
  apply sum_nonneg, Forall_forall. intros v Hv.
  apply list_elem_of_fmap in Hv as (x & -> & _).
  change (0 <= Rsqr (x - m)). apply Rle_0_sqr.
Qed.

Lemma std_nonneg (l : list R) : 0 <= std l.
Proof. unfold std. apply sqrt_pos. Qed.

Lemma mean_affine (a b : R) (l : list R) :
  l <> [] -> mean (map (fun v => a * v + b) l) = a * mean l + b.
Proof.
  intros Hl. unfold mean. rewrite sum_map_affine, length_map.
  assert (INR (length l) <> 0).
  { apply not_0_INR. destruct l; [congruence | discriminate]. }
  field. assumption.
Qed.

Lemma std_affine (a b : R) (l : list R) :
  l <> [] -> 0 <= a -> std (map (fun v => a * v + b) l) = a * std l.
Proof.
  intros Hl Ha. unfold std. rewrite mean_affine by assumption.
  rewrite map_map, length_map.
  rewrite (sum_map_ext _ (fun v => (a * a) * ((v - mean l) * (v - mean l))))
    by (intros v; ring).
  rewrite sum_map_scal.
  unfold Rdiv. rewrite Rmult_assoc.
  rewrite sqrt_mult_alt by nra.
  rewrite sqrt_square by assumption. reflexivity.
Qed.

Lemma eps_pos : 0 < eps.
Proof. unfold eps. lra. Qed.

Lemma aligned_row_affine (stu_row tea_row : list R) :
  aligned_row stu_row tea_row
  = map (fun v => std tea_row / (std stu_row + eps) * v
                  + (mean tea_row
                     - std tea_row / (std stu_row + eps) * mean stu_row))
        stu_row.
Proof.
  unfold aligned_row. rewrite map_map. apply map_ext. intros v.
  pose proof (std_nonneg stu_row). pose proof eps_pos.
  field. lra.
Qed.

Lemma aligned_row_mean (stu_row tea_row : list R) :
  stu_row <> [] ->
  mean (aligned_row stu_row tea_row) = mean tea_row.
Proof.
  intros Hl. rewrite aligned_row_affine, mean_affine by assumption. ring.
Qed.

Lemma aligned_row_std (stu_row tea_row : list R) :
  stu_row <> [] ->
  std (aligned_row stu_row tea_row)
  = std tea_row * (std stu_row / (std stu_row + eps)).
Proof.
  intros Hl. rewrite aligned_row_affine, std_affine.
  - pose proof (std_nonneg stu_row). pose proof eps_pos. field. lra.
  - assumption.
  - pose proof (std_nonneg stu_row). pose proof (std_nonneg tea_row).
    pose proof eps_pos. apply Rle_mult_inv_pos; lra.
Qed.

End Statistics.

(** ** The channel view of a tensor *)

Section Channels.
Local Open Scope nat_scope.

Lemma shape4_size4 (N C H W : nat) (x : Tensor4) :
  shape4 N C H W x -> 0 < N -> 0 < C -> 0 < H ->
  size4 x = (N, C, H, W).
Proof.
  intros [Hn Hx] HN HC HH. unfold size4.
  destruct x as [|s x]; [simpl in Hn; lia|].
  inversion Hx as [|? ? [Hs Hch] _]; subst. simpl.
  destruct s as [|ch s]; [simpl in HC; lia|].
  inversion Hch as [|? ? [Hh Hrows] _]; subst. simpl.
  destruct ch as [|row ch]; [simpl in HH; lia|].
  inversion Hrows as [|? ? Hw _]; subst. reflexivity.
Qed.

Lemma map_nth_seq {A} (l : list A) (d : A) :
  map (fun i => nth i l d) (seq 0 (length l)) = l.
Proof.
  induction l as [|a l IH]; [reflexivity|].
  simpl. f_equal. rewrite <- seq_shift, map_map. exact IH.
Qed.

Lemma nth_map_in {A B} (f : A -> B) (l : list A) (i : nat) (d : A) (d' : B) :
  i < length l -> nth i (map f l) d' = f (nth i l d).
Proof.
  intros Hi. rewrite (nth_indep _ d' (f d)) by (rewrite length_map; lia).
  apply map_nth.
Qed.

Lemma shape4_channel_block (N C H W : nat) (x : Tensor4) (c : nat) :
  shape4 N C H W x -> c < C ->
  Forall (fun b => length b = H * W)
    (map (fun s => concat (nth c s [])) x).
Proof.
  intros [_ Hx] Hc. apply Forall_forall. intros b Hb.
  apply list_elem_of_fmap in Hb as (s & -> & Hs).
  rewrite Forall_forall in Hx. destruct (Hx s Hs) as [Hlen Hch].
  assert (Hin : nth c s [] ∈ s).
  { apply list_elem_of_In, nth_In. lia. }
  rewrite Forall_forall in Hch. destruct (Hch _ Hin) as [Hh Hrows].
  rewrite (length_concat_uniform W) by assumption. rewrite Hh. reflexivity.
Qed.

Lemma channel_length (N C H W : nat) (x : Tensor4) (c : nat) :
  shape4 N C H W x -> c < C -> length (channel c x) = N * (H * W).
Proof.
  intros Hx Hc. unfold channel.
  rewrite (length_concat_uniform (H * W))
    by (eapply shape4_channel_block; eauto).
  rewrite length_map. destruct Hx as [-> _]. reflexivity.
Qed.

(** The (C, -1) view taken by [align_scale] has the channels as rows. *)
Lemma rows_of_tensor (N C H W : nat) (x : Tensor4) :
  shape4 N C H W x -> 0 < N -> 0 < C -> 0 < H ->
  reshape_rows C (flatten4 (permute_1023 x))
  = Ok (map (fun c => channel c x) (seq 0 C)).
Proof.
  intros Hx HN HC HH.
  assert (Ef : flatten4 (permute_1023 x)
               = concat (map (fun c => channel c x) (seq 0 C))).
  { unfold flatten4, permute_1023.
    rewrite (shape4_size4 N C H W) by assumption.
    rewrite map_map. f_equal. apply map_ext. intros c.
    unfold channel. rewrite map_map. reflexivity. }
  rewrite Ef. apply reshape_rows_concat with (m := N * (H * W)).
  - exact HC.
  - rewrite length_map, length_seq. reflexivity.
  - apply Forall_forall. intros r Hr.
    apply list_elem_of_fmap in Hr as (c & -> & Hc).
    apply list_elem_of_In, in_seq in Hc.
    eapply channel_length; eauto. lia.
Qed.

Lemma reshape_CNHW_shape (N C H W : nat) (rows : list (list R)) :
  length rows = C -> Forall (fun r => length r = N * (H * W)) rows ->
  shape4 C N H W (reshape_CNHW N H W rows).
Proof.
  intros Hlen Hrows. unfold reshape_CNHW. split.
  - rewrite length_map. exact Hlen.
  - apply Forall_forall. intros chan Hchan.
    apply list_elem_of_fmap in Hchan as (row & -> & Hrow).
    rewrite Forall_forall in Hrows. specialize (Hrows row Hrow).
    split; [rewrite length_map; apply chunks_length|].
    apply Forall_forall. intros blk Hblk.
    apply list_elem_of_fmap in Hblk as (b & -> & Hb).
    pose proof (chunks_Forall_length N (H * W) row Hrows) as Hbs.
    rewrite Forall_forall in Hbs. specialize (Hbs b Hb).
    split; [apply chunks_length|].
    apply chunks_Forall_length. exact Hbs.
Qed.

Lemma permute_1023_shape (N C H W : nat) (x : Tensor4) :
  shape4 C N H W x -> 0 < C -> 0 < N -> 0 < H ->
  shape4 N C H W (permute_1023 x).
Proof.
  intros Hx HC HN HH. unfold permute_1023.
  rewrite (shape4_size4 C N H W) by assumption.
  destruct Hx as [Hlen Hx]. split.
  - rewrite length_map, length_seq. reflexivity.
  - apply Forall_forall. intros s Hs.
    apply list_elem_of_fmap in Hs as (n & -> & Hn).
    apply list_elem_of_In, in_seq in Hn.
    split; [rewrite length_map; exact Hlen|].
    apply Forall_forall. intros ch Hch.
    apply list_elem_of_fmap in Hch as (chan & -> & Hchan).
    rewrite Forall_forall in Hx. destruct (Hx chan Hchan) as [Hl Hrows].
    rewrite Forall_forall in Hrows. apply Hrows.
    apply list_elem_of_In, nth_In. lia.
Qed.

(** Channel [c] of the tensor rebuilt from the rows is row [c]. *)
Lemma channel_of_rows (N C H W : nat) (rows : list (list R)) (c : nat) :
  length rows = C -> Forall (fun r => length r = N * (H * W)) rows ->
  0 < C -> 0 < N -> 0 < H -> c < C ->
  channel c (permute_1023 (reshape_CNHW N H W rows)) = nth c rows [].
Proof.
  intros Hlen Hrows HC HN HH Hc.
  pose proof (reshape_CNHW_shape N C H W rows Hlen Hrows) as Hsh.
  unfold channel, permute_1023.
  rewrite (shape4_size4 C N H W) by assumption.
  rewrite map_map.
  assert (Hrow : length (nth c rows []) = N * (H * W)).
  { rewrite Forall_forall in Hrows. apply Hrows.
    apply list_elem_of_In, nth_In. lia. }
  transitivity (concat (chunks N (H * W) (nth c rows [])));
    [|apply concat_chunks; exact Hrow].
  f_equal.
  rewrite <- (map_nth_seq (chunks N (H * W) (nth c rows [])) []).
  rewrite chunks_length. apply map_ext_in. intros n Hn. apply in_seq in Hn.
  rewrite (nth_map_in _ _ _ []) by (destruct Hsh as [-> _]; lia).
  unfold reshape_CNHW.
  rewrite (nth_map_in _ _ _ []) by lia.
  rewrite (nth_map_in _ _ _ []) by (rewrite chunks_length; lia).
  apply concat_chunks.
  pose proof (chunks_Forall_length N (H * W) _ Hrow) as Hbs.
  rewrite Forall_forall in Hbs. apply Hbs.
  apply list_elem_of_In, nth_In. rewrite chunks_length. lia.
Qed.

End Channels.

(** ** [align_scale] *)

Section AlignScale.
Local Open Scope nat_scope.

Lemma align_scale_channels (N C H W N' H' W' : nat) (stu tea : Tensor4) :
  shape4 N C H W stu -> shape4 N' C H' W' tea ->
  0 < C -> 0 < N -> 0 < H -> 0 < N' -> 0 < H' ->
  exists out,
    align_scale stu tea = Ok out /\
    shape4 N C H W out /\
    forall c, c < C ->
      channel c out = aligned_row (channel c stu) (channel c tea).
Proof.
  intros Hs Ht HC HN HH HN' HH'.
  set (rows :=
    zip_with
      (fun row tea_row : list R =>
         map (fun v => (v * std tea_row + mean tea_row)%R) row)
      (map (fun row : list R =>
              map (fun v => ((v - mean row) / (std row + eps))%R) row)
           (map (fun c => channel c stu) (seq 0 C)))
      (map (fun c => channel c tea) (seq 0 C))).
  assert (Eout : align_scale stu tea
                 = Ok (permute_1023 (reshape_CNHW N H W rows))).
  { unfold align_scale. rewrite (shape4_size4 N C H W) by assumption.
    cbv iota beta.
    rewrite (rows_of_tensor N C H W stu) by assumption.
    unfold mbind at 1, Res_bind at 1. cbv beta iota.
    rewrite (rows_of_tensor N' C H' W' tea) by assumption.
    reflexivity. }
  assert (Hrow : forall c, c < C ->
            rows !! c = Some (aligned_row (channel c stu) (channel c tea))).
  { intros c Hc. unfold rows.
    rewrite lookup_zip_with, !list_lookup_fmap, lookup_seq_lt by lia.
    reflexivity. }
  assert (Hlen : length rows = C).
  { unfold rows. rewrite length_zip_with, !length_map, length_seq. lia. }
  assert (Hall : Forall (fun r => length r = N * (H * W)) rows).
  { apply Forall_lookup. intros c r Hr.
    assert (Hc : c < C) by (rewrite <- Hlen; eapply lookup_lt_Some; eauto).
    rewrite Hrow in Hr by assumption. injection Hr as <-.
    unfold aligned_row. rewrite !length_map.
    eapply channel_length; eauto. }
  eexists. split; [exact Eout|]. split.
  - apply permute_1023_shape; try assumption.
    apply reshape_CNHW_shape; assumption.
  - intros c Hc. rewrite (channel_of_rows N C H W) by assumption.
    rewrite nth_lookup, Hrow by assumption. reflexivity.
Qed.

Local Open Scope R_scope.

(** C4 (as amended).  On well-formed student and teacher tensors with the
    same channel count and at least two entries per channel,
    [align_scale] returns a tensor of the student's shape whose
    per-channel mean is the teacher's per-channel mean and whose
    per-channel standard deviation is the teacher's multiplied by
    s / (s + 1e-6), with s the student's standard deviation on that
    channel. *)
Theorem align_scale_statistics (N C H W N' H' W' : nat) (stu tea : Tensor4) :
  shape4 N C H W stu -> shape4 N' C H' W' tea ->
  (0 < C)%nat -> (2 <= N * H * W)%nat -> (2 <= N' * H' * W')%nat ->
  exists out,
    align_scale stu tea = Ok out /\
    shape4 N C H W out /\
    forall c, (c < C)%nat ->
      mean (channel c out) = mean (channel c tea) /\
      std (channel c out)
      = std (channel c tea)
        * (std (channel c stu) / (std (channel c stu) + eps)).
Proof.
  intros Hs Ht HC Hn Hn'.
  assert (0 < N /\ 0 < H /\ 0 < W)%nat as (HN & HH & HW).
  { destruct N, H, W; try lia; rewrite ?Nat.mul_0_r in Hn; lia. }
  assert (0 < N' /\ 0 < H')%nat as (HN' & HH').
  { destruct N', H'; try lia; rewrite ?Nat.mul_0_r in Hn'; lia. }
  destruct (align_scale_channels N C H W N' H' W' stu tea)
    as (out & Eout & Hsh & Hch); try assumption.
  exists out. split; [exact Eout|]. split; [exact Hsh|].
  intros c Hc. rewrite (Hch c Hc).
  assert (Hne : channel c stu <> []).
  { intros E. pose proof (channel_length N C H W stu c Hs Hc) as Hl.
    rewrite E in Hl. simpl in Hl. nia. }
  split; [now apply aligned_row_mean | now apply aligned_row_std].
Qed.

End AlignScale.

Section AlignScaleDemo.
Local Open Scope R_scope.

Lemma demo_shape : shape4 1 1 1 3 Demo.stu_feat /\ shape4 1 1 1 3 Demo.tea_feat.
Proof. split; (split; [reflexivity|]); repeat constructor. Qed.

Lemma demo_stu_mean : mean (channel 0 Demo.stu_feat) = 0.
Proof. unfold mean, sum. simpl. lra. Qed.

Lemma demo_stu_std : std (channel 0 Demo.stu_feat) = 1.
Proof.
  unfold std. rewrite demo_stu_mean. unfold sum. simpl.
  replace ((0 + (-1 - 0) * (-1 - 0) + (0 - 0) * (0 - 0) + (1 - 0) * (1 - 0))
           / (1 + 1)) with 1 by lra.
  apply sqrt_1.
Qed.

Lemma align_scale_statistics_witness :
  exists out,
    align_scale Demo.stu_feat Demo.tea_feat = Ok out /\
    mean (channel 0 out) = mean (channel 0 Demo.tea_feat) /\
    std (channel 0 out) = std (channel 0 Demo.tea_feat) * (1 / (1 + eps)).
Proof.
  destruct (align_scale_statistics 1 1 1 3 1 1 3 Demo.stu_feat Demo.tea_feat
              (proj1 demo_shape) (proj2 demo_shape))
    as (out & Eout & _ & Hst); try (simpl; lia).
  exists out. split; [exact Eout|].
  destruct (Hst 0%nat) as [Hm Hs]; [lia|].
  split; [exact Hm|]. rewrite Hs, demo_stu_std. reflexivity.
Defined.

(** Aligning a feature with itself does not return its standard
    deviation: the channel of deviation 1 comes back with deviation
    1 / (1 + 1e-6). *)
Lemma align_scale_std_short :
  exists out,
    align_scale Demo.stu_feat Demo.stu_feat = Ok out /\
    std (channel 0 out) <> std (channel 0 Demo.stu_feat).
Proof.
  destruct (align_scale_channels 1 1 1 3 1 1 3 Demo.stu_feat Demo.stu_feat
              (proj1 demo_shape) (proj1 demo_shape))
    as (out & Eout & _ & Hch); try lia.
  exists out. split; [exact Eout|].
  rewrite (Hch 0%nat) by lia.
  rewrite aligned_row_std by discriminate.
  rewrite demo_stu_std. pose proof eps_pos as He. intros E.
  assert (E' : 1 = 1 + eps).
  { apply (Rmult_eq_compat_r (1 + eps)) in E.
    unfold Rdiv in E. rewrite Rmult_1_l, Rmult_assoc, Rinv_l in E; lra. }
  lra.
Qed.

End AlignScaleDemo.

(** ** The forward passes through the heads *)

Section Heads.
Context `{Framework}.


Lemma run_convs_app convs1 convs2 x :
  run_convs (convs1 ++ convs2) x = run_convs convs2 (run_convs convs1 x).
Proof. unfold run_convs. apply fold_left_app. Qed.

Lemma conv_loop_feat idx convs i feat hold :
  fst (conv_loop idx convs i feat hold) = run_convs convs feat.
Proof.
  revert i feat hold. induction convs as [|conv convs IH]; intros i feat hold.
  - reflexivity.
  - simpl. rewrite IH. reflexivity.
Qed.

Lemma conv_loop_hold idx convs i feat hold :
  snd (conv_loop idx convs i feat hold)
  = match (if (idx <=? i)%nat then None
           else held_at convs (idx - i) feat) with
    | Some h => h
    | None => hold
    end.
Proof.
  revert i feat hold. induction convs as [|conv convs IH]; intros i feat hold.
  - simpl. destruct (idx <=? i)%nat; [reflexivity|].
    destruct (idx - i)%nat as [|k]; [reflexivity|].
    simpl. destruct k; reflexivity.
  - simpl conv_loop. rewrite IH. unfold call_conv.
    destruct (Nat.leb_spec idx i) as [Hle|Hlt].
    + destruct (Nat.leb_spec idx (S i)); [|lia].
      destruct (Nat.eqb_spec (i + 1) idx); [lia | reflexivity].
    + destruct (Nat.eqb_spec (i + 1) idx) as [Heq|Hne].
      * destruct (Nat.leb_spec idx (S i)); [|lia].
        replace (idx - i)%nat with 1%nat by lia.
        unfold held_at, held_output. simpl.
        destruct (inplace conv); reflexivity.
      * destruct (Nat.leb_spec idx (S i)); [lia|].
        replace (idx - i)%nat with (S (idx - S i)) by lia.
        destruct (idx - S i)%nat as [|k] eqn:Ek; [lia|].
        simpl. destruct (nth_error convs k); reflexivity.
Qed.

(** The two loops of [forward_crosskd_single] on one stack of convs. *)
Lemma conv_loop_0 idx convs x :
  conv_loop idx convs 0 x x
  = (run_convs convs x,
     match held_at convs idx x with Some h => h | None => x end).
Proof.
  rewrite (surjective_pairing (conv_loop idx convs 0 x x)).
  rewrite conv_loop_feat, conv_loop_hold.
  destruct idx as [|k]; [reflexivity|].
  simpl Nat.leb. rewrite Nat.sub_0_r. reflexivity.
Qed.

Lemma forward_crosskd_single_eq x scale module (self : CrossKDGFL) :
  forward_crosskd_single x scale module self
  = (Ok (gfl_cls (bbox_head (deref module self))
           (run_convs (cls_convs (bbox_head (deref module self))) x),
         scale (gfl_reg (bbox_head (deref module self))
           (run_convs (reg_convs (bbox_head (deref module self))) x)),
         match held_at (cls_convs (bbox_head (deref module self)))
                 (reused_teacher_head_idx self) x with
         | Some h => h | None => x end,
         match held_at (reg_convs (bbox_head (deref module self)))
                 (reused_teacher_head_idx self) x with
         | Some h => h | None => x end), self).
Proof.
  unfold forward_crosskd_single, mbind, M_bind, get. simpl.
  rewrite !conv_loop_0. reflexivity.
Qed.

Lemma skipn_nth_error {A} (l : list A) (a : nat) (c : A) :
  nth_error l a = Some c -> skipn a l = c :: skipn (S a) l.
Proof.
  revert a. induction l as [|y l IH]; intros [|a] E; try discriminate.
  - injection E as ->. reflexivity.
  - simpl in E. apply IH in E. exact E.
Qed.

Lemma reuse_loop_ok (head : Head) (k a : nat) cf rf :
  (a + k <= length (cls_convs head))%nat ->
  (a + k <= length (reg_convs head))%nat ->
  reuse_loop head (seq a k) cf rf
  = Ok (run_convs (firstn k (skipn a (cls_convs head))) cf,
        run_convs (firstn k (skipn a (reg_convs head))) rf).
Proof.
  revert a cf rf. induction k as [|k IH]; intros a cf rf Hc Hr.
  - reflexivity.
  - simpl reuse_loop. unfold index.
    destruct (nth_error (cls_convs head) a) as [cc|] eqn:Ec.
    2:{ apply nth_error_None in Ec. lia. }
    destruct (nth_error (reg_convs head) a) as [rc|] eqn:Er.
    2:{ apply nth_error_None in Er. lia. }
    simpl. rewrite IH by lia.
    rewrite (skipn_nth_error _ _ _ Ec), (skipn_nth_error _ _ _ Er).
    reflexivity.
Qed.

Lemma reuse_teacher_head_eq tc tr sc sr scale (self : CrossKDGFL) ac ar :
  length (cls_convs (bbox_head (teacher self)))
    = stacked_convs (bbox_head (teacher self)) ->
  length (reg_convs (bbox_head (teacher self)))
    = stacked_convs (bbox_head (teacher self)) ->
  align_scale sc tc = Ok ac ->
  align_scale sr tr = Ok ar ->
  reuse_teacher_head tc tr sc sr scale self
  = (Ok (resume_cls (bbox_head (teacher self))
           (reused_teacher_head_idx self) ac,
         resume_reg (bbox_head (teacher self))
           (reused_teacher_head_idx self) scale ar), self).
Proof.
  intros Hc Hr Eac Ear.
  unfold reuse_teacher_head, mbind, M_bind, get, lift. rewrite Eac, Ear.
  unfold range, resume_cls, resume_reg.
  set (idx := reused_teacher_head_idx self).
  set (th := bbox_head (teacher self)) in *.
  destruct (Nat.le_gt_cases idx (stacked_convs th)) as [Hle|Hgt].
  - assert (Ef : forall convs : list ConvModule,
               length convs = stacked_convs th ->
               firstn (stacked_convs th - idx) (skipn idx convs)
               = skipn idx convs).
    { intros convs Hl. apply firstn_all2. rewrite length_skipn. lia. }
    destruct (idx =? 0)%nat; rewrite reuse_loop_ok by lia;
      rewrite !Ef by assumption; reflexivity.
  - replace (stacked_convs th - idx)%nat with 0%nat by lia.
    rewrite !skipn_all2 by lia.
    destruct (idx =? 0)%nat; reflexivity.
Qed.


Lemma held_at_in_range convs idx x :
  (1 <= idx <= length convs)%nat ->
  exists h, held_at convs idx x = Some h.
Proof.
  intros Hi. unfold held_at. destruct idx as [|k]; [lia|].
  destruct (nth_error convs k) eqn:E; [eexists; reflexivity|].
  apply nth_error_None in E. lia.
Qed.

Lemma held_at_out_of_range convs idx x :
  idx = 0%nat \/ (length convs < idx)%nat ->
  held_at convs idx x = None.
Proof.
  intros [-> | Hlt]; [reflexivity|].
  unfold held_at. destruct idx as [|k]; [reflexivity|].
  destruct (nth_error convs k) eqn:E; [|reflexivity].
  assert (k < length convs)%nat by (apply nth_error_Some; congruence).
  lia.
Qed.

End Heads.

Section HeadClaims.
Context `{Framework}.


(** C8.  With [reused_teacher_head_idx = 0], and also when it exceeds the
    number of convs, the features held by [forward_crosskd_single] are
    its input [x] itself; with [reused_teacher_head_idx = 0],
    [reuse_teacher_head] applies all the [stacked_convs] convs of the
    teacher's head, then [gfl_cls], respectively [gfl_reg] and the scale,
    to the aligned features, with no ReLU in front. *)
Theorem reuse_idx_edge_cases (self : CrossKDGFL) (module : ModuleRef) x scale
    tc tr sc sr scale' ac ar :
  let idx := reused_teacher_head_idx self in
  let head := bbox_head (deref module self) in
  let th := bbox_head (teacher self) in
  (idx = 0%nat \/
   ((length (cls_convs head) < idx)%nat /\
    (length (reg_convs head) < idx)%nat) ->
   forward_crosskd_single x scale module self
   = (Ok (gfl_cls head (run_convs (cls_convs head) x),
          scale (gfl_reg head (run_convs (reg_convs head) x)),
          x, x), self)) /\
  (idx = 0%nat ->
   length (cls_convs th) = stacked_convs th ->
   length (reg_convs th) = stacked_convs th ->
   align_scale sc tc = Ok ac ->
   align_scale sr tr = Ok ar ->
   reuse_teacher_head tc tr sc sr scale' self
   = (Ok (gfl_cls th (run_convs (cls_convs th) ac),
          scale' (gfl_reg th (run_convs (reg_convs th) ar))), self)).
Proof.
  intros idx head th. split.
  - intros Hidx. rewrite forward_crosskd_single_eq. fold head. fold idx.
    rewrite !held_at_out_of_range by (destruct Hidx as [?|[? ?]]; auto).
    reflexivity.
  - intros H0 Htc Htr Eac Ear.
    rewrite (reuse_teacher_head_eq tc tr sc sr scale' self ac ar)
      by assumption.
    fold th. fold idx. unfold resume_cls, resume_reg. rewrite H0.
    reflexivity.
Qed.

End HeadClaims.

Lemma demo_align_runs :
  exists a, align_scale Demo.stu_feat Demo.tea_feat = Ok a.
Proof. eexists. reflexivity. Qed.



Lemma reuse_idx_edge_cases_witness :
  exists a,
    align_scale Demo.stu_feat Demo.tea_feat = Ok a /\
    forward_crosskd_single Demo.tea_feat (fun t => t) Teacher
      (Demo.detector 0 false)
    = (Ok (run_convs [Demo.conv; Demo.conv] Demo.tea_feat,
           gfl_reg Demo.head
             (run_convs [Demo.conv; Demo.conv] Demo.tea_feat),
           Demo.tea_feat, Demo.tea_feat), Demo.detector 0 false) /\
    forward_crosskd_single Demo.stu_feat (fun t => t) Self
      (Demo.detector 3 false)
    = (Ok (run_convs [Demo.conv; Demo.conv] Demo.stu_feat,
           gfl_reg Demo.head
             (run_convs [Demo.conv; Demo.conv] Demo.stu_feat),
           Demo.stu_feat, Demo.stu_feat), Demo.detector 3 false) /\
    reuse_teacher_head Demo.tea_feat Demo.tea_feat Demo.stu_feat
      Demo.stu_feat (fun t => t) (Demo.detector 0 false)
    = (Ok (run_convs [Demo.conv; Demo.conv] a,
           gfl_reg Demo.head (run_convs [Demo.conv; Demo.conv] a)),
       Demo.detector 0 false).
Proof.
  destruct demo_align_runs as [a Ea]. exists a.
  split; [exact Ea|]. split; [|split].
  - apply (proj1 (reuse_idx_edge_cases (Demo.detector 0 false) Teacher
                    Demo.tea_feat (fun t => t) Demo.tea_feat Demo.tea_feat
                    Demo.stu_feat Demo.stu_feat (fun t => t) a a)).
    left. reflexivity.
  - apply (proj1 (reuse_idx_edge_cases (Demo.detector 3 false) Self
                    Demo.stu_feat (fun t => t) Demo.tea_feat Demo.tea_feat
                    Demo.stu_feat Demo.stu_feat (fun t => t) a a)).
    right. simpl. lia.
  - apply (proj2 (reuse_idx_edge_cases (Demo.detector 0 false) Teacher
                    Demo.tea_feat (fun t => t) Demo.tea_feat Demo.tea_feat
                    Demo.stu_feat Demo.stu_feat (fun t => t) a a));
      try reflexivity; exact Ea.
Defined.

(** ** The prediction-mimicking loss of one level *)

Section PredMimicking.
Context `{Framework}.
Local Open Scope R_scope.

Lemma lift_ok {S A} (r : Res A) (s s' : S) (a : A) :
  lift r s = (Ok a, s') -> r = Ok a /\ s' = s.
Proof. unfold lift. intros E. injection E as -> ->. auto. Qed.

Lemma pred_mimicking_loss_single_ok tc tb rc rb lw avg (self : CrossKDGFL)
    k s' :
  pred_mimicking_loss_single tc tb rc rb lw avg self = (Ok k, s') ->
  s' = self /\
  exists tcr rcr tbr rbr w,
    reshape_cols (cls_out_channels (bbox_head (student self)))
      (flatten4 (permute_0231 tc)) = Ok tcr /\
    reshape_cols (cls_out_channels (bbox_head (student self)))
      (flatten4 (permute_0231 rc)) = Ok rcr /\
    reshape_cols (reg_max (bbox_head (student self)) + 1)
      (flatten4 (permute_0231 tb)) = Ok tbr /\
    reshape_cols (reg_max (bbox_head (student self)) + 1)
      (flatten4 (permute_0231 rb)) = Ok rbr /\
    mask_zero (map (fun row => sigmoid (row_max row)) tcr) (concat lw)
      = Ok w /\
    k = (loss_cls_kd self rcr tcr (concat lw) avg,
         loss_reg_kd self rbr tbr (expand4 w) 4,
         sum w).
Proof.
  unfold pred_mimicking_loss_single. intros E.
  apply bind_ok in E as (self0 & s0 & Eg & E). injection Eg as <- <-.
  apply bind_ok in E as (tcr & s1 & E1 & E). apply lift_ok in E1 as [E1 ->].
  apply bind_ok in E as (rcr & s2 & E2 & E). apply lift_ok in E2 as [E2 ->].
  apply bind_ok in E as (tbr & s3 & E3 & E). apply lift_ok in E3 as [E3 ->].
  apply bind_ok in E as (rbr & s4 & E4 & E). apply lift_ok in E4 as [E4 ->].
  apply bind_ok in E as (w & s5 & E5 & E). apply lift_ok in E5 as [E5 ->].
  injection E as <- <-. split; [reflexivity|].
  exists tcr, rcr, tbr, rbr, w. repeat split; assumption.
Qed.


(** The per-level factor is the total of the weights of the level. *)
Lemma kd_level_total self avg level k :
  kd_level self avg level k ->
  exists w : list R, Forall (fun v => 0 <= v) w /\ snd k = sum w.
Proof.
  destruct level as (tc & tb & rc & rb & lw). unfold kd_level. intros E.
  apply pred_mimicking_loss_single_ok in E
    as (_ & tcr & rcr & tbr & rbr & w & _ & _ & _ & _ & Em & ->).
  exists w. split; [|reflexivity].
  eapply masked_weights_nonneg; eauto.
Qed.

(** The per-level factor is zero when every label weight of the level is
    zero. *)
Lemma kd_level_factor_zero self avg level k :
  kd_level self avg level k ->
  Forall (fun v => v = 0) (concat (snd (snd (snd (snd level))))) ->
  snd k = 0.
Proof.
  destruct level as (tc & tb & rc & rb & lw). unfold kd_level. intros E Hz.
  apply pred_mimicking_loss_single_ok in E
    as (_ & tcr & rcr & tbr & rbr & w & _ & _ & _ & _ & Em & ->).
  simpl in *. apply mask_zero_ok in Em as [Hlen ->].
  rewrite (sum_constant 0); [lra|].
  apply Forall_lookup. intros i v Hv.
  apply lookup_zip_with_Some in Hv as (wi & li & -> & _ & Eli).
  rewrite Forall_lookup in Hz. rewrite (Hz i li Eli).
  destruct (Req_dec_T 0 0); [reflexivity | contradiction].
Qed.


End PredMimicking.

(** ** The weights of the regression distillation loss *)

Section RegKdWeights.
Context `{Framework}.
Local Open Scope R_scope.

(** C5.  In [pred_mimicking_loss_single] the weight handed to the
    regression distillation loss repeats, four times per location, the
    sigmoid of the largest teacher classification score of that location,
    or zero where the label weight of the location is zero; the third
    component returned is the sum of the per-location weights. *)
Theorem reg_kd_weights tc tb rc rb lw avg (self : CrossKDGFL) lck lrk f s' :
  pred_mimicking_loss_single tc tb rc rb lw avg self = (Ok (lck, lrk, f), s') ->
  exists scores tbr rbr w,
    reshape_cols (cls_out_channels (bbox_head (student self)))
      (flatten4 (permute_0231 tc)) = Ok scores /\
    (Forall (fun s => length s = cls_out_channels (bbox_head (student self)))
       tc -> scores = locations tc) /\
    reshape_cols (reg_max (bbox_head (student self)) + 1)
      (flatten4 (permute_0231 tb)) = Ok tbr /\
    reshape_cols (reg_max (bbox_head (student self)) + 1)
      (flatten4 (permute_0231 rb)) = Ok rbr /\
    lrk = loss_reg_kd self rbr tbr (expand4 w) 4 /\
    length w = length scores /\
    length w = length (concat lw) /\
    (forall i row l,
       scores !! i = Some row -> concat lw !! i = Some l ->
       In (row_max row) row /\
       Forall (fun v => v <= row_max row) row /\
       (l <> 0 -> w !! i = Some (sigmoid (row_max row))) /\
       (l = 0 -> w !! i = Some 0)) /\
    (forall i j, (j < 4)%nat -> expand4 w !! (4 * i + j)%nat = w !! i) /\
    f = sum w.
Proof.
  intros E.
  apply pred_mimicking_loss_single_ok in E
    as (_ & scores & rcr & tbr & rbr & w & Es & _ & Etb & Erb & Em & Ek).
  injection Ek as -> -> ->.
  exists scores, tbr, rbr, w.
  pose proof (reshape_cols_ok _ _ _ Es) as (HK & Hrows & _).
  pose proof (mask_zero_length _ _ _ Em) as [Hl1 Hl2].
  rewrite length_map in Hl2.
  split; [exact Es|]. split.
  { intros Hx. rewrite reshape_cols_locations in Es by assumption.
    injection Es as <-. reflexivity. }
  split; [exact Etb|]. split; [exact Erb|]. split; [reflexivity|].
  split; [exact Hl2|]. split; [exact Hl1|]. split.
  - intros i row l Hrow Hl.
    assert (Hne : row <> []).
    { rewrite Forall_lookup in Hrows. specialize (Hrows i row Hrow).
      intros ->. simpl in Hrows. lia. }
    destruct (row_max_spec row Hne) as [Hin Hmax].
    split; [exact Hin|]. split; [exact Hmax|].
    pose proof (mask_zero_lookup _ _ _ i (sigmoid (row_max row)) l Em) as Hw.
    rewrite list_lookup_fmap, Hrow in Hw. specialize (Hw eq_refl Hl).
    destruct (Req_dec_T l 0) as [Hz|Hz]; split; intros Hl0;
      solve [exact Hw | contradiction].
  - split; [|reflexivity]. intros i j Hj. now apply expand4_lookup.
Qed.

End RegKdWeights.

Lemma reg_kd_weights_witness :
  exists lck lrk f w,
    pred_mimicking_loss_single Demo.tea_score Demo.tea_box Demo.reused_score
      Demo.reused_box [[1; 1; 0]]%R 2%R (Demo.detector 1 false)
      = (Ok (lck, lrk, f), Demo.detector 1 false) /\
    f = sum w /\ w !! 0%nat = Some (sigmoid 1) /\ w !! 2%nat = Some 0%R.
Proof.
  eassert (E : pred_mimicking_loss_single Demo.tea_score Demo.tea_box
                 Demo.reused_score Demo.reused_box [[1; 1; 0]]%R 2%R
                 (Demo.detector 1 false) = (Ok (_, _, _), _))
    by reflexivity.
  destruct (reg_kd_weights _ _ _ _ _ _ _ _ _ _ _ E)
    as (scores & tbr & rbr & w & Es & _ & _ & _ & _ & _ & _ & Hw & _ & Hf).
  injection Es as <-.
  eexists _, _, _, w. split; [exact E|]. split; [exact Hf|]. split.
  - destruct (Hw 0%nat [1%R] 1%R eq_refl eq_refl) as (_ & _ & Hnz & _).
    apply Hnz. lra.
  - destruct (Hw 2%nat [3%R] 0%R eq_refl eq_refl) as (_ & _ & _ & Hz).
    apply Hz. reflexivity.
Defined.

Section LossByFeat.
Context `{Framework}.

Lemma loss_by_feat_trace_ok tcs tbs tfs cs bs fs rcs rbs gt metas ign
    (self : CrossKDGFL) tr s' :
  loss_by_feat_trace tcs tbs tfs cs bs fs rcs rbs gt metas ign self
    = (Ok tr, s') ->
  s' = self /\
  length cs = num_levels (bbox_head (student self)) /\
  cs <> [] /\
  supervised_levels self cs bs gt metas ign <> [] /\
  exists kd,
    kd <> [] /\
    Forall2 (kd_level self (avg_factor_of self cs gt metas ign))
      (zip tcs (zip tbs (zip rcs (zip rbs
         (label_weights_of self cs gt metas ign))))) kd /\
    tr = assemble self (supervised_levels self cs bs gt metas ign) kd fs tfs.
Proof.
  unfold loss_by_feat_trace. intros E.
  apply bind_ok in E as (self0 & s1 & Eg & E). injection Eg as <- <-.
  destruct (negb _) eqn:Elen; [discriminate|].
  apply negb_false_iff, Nat.eqb_eq in Elen. rewrite length_map in Elen.
  apply bind_ok in E as (c0 & s2 & Ei & E).
  assert (Hne : cs <> []) by (intros ->; discriminate Ei).
  unfold lift in Ei. injection Ei as _ <-.
  unfold supervised_levels, avg_factor_of, label_weights_of, targets_of.
  destruct (get_anchors _ _ _) as [al vf].
  destruct (get_targets _ _ _ _ _ _) as [[[[[al' ll] lwl] btl] bwl] avg].
  apply bind_ok in E as ([[[lc lb] ld] nf] & s3 & Es & E).
  apply multi_apply_ok in Es as [-> (sup & Hsup & Eunz & Fs)].
  2:{ intros (a1 & a2 & a3 & a4 & a5 & a6 & a7) s0. reflexivity. }
  apply bind_ok in E as ([[lck lrk] kf] & s4 & Ek & E).
  apply multi_apply_ok in Ek as [-> (kd & Hkd & Ekunz & Fk)].
  2:{ intros (a1 & a2 & a3 & a4 & a5) s0.
      apply read_only_pred_mimicking_loss_single. }
  injection Eunz as -> -> -> ->. injection Ekunz as -> -> ->.
  injection E as <- <-.
  split; [reflexivity|]. split; [exact Elen|]. split; [exact Hne|].
  assert (Esup : sup = map (fun '(anchors, (cls_score, (bbox_pred, (labels,
              (label_weights, (bbox_targets, stride)))))) =>
         loss_by_feat_single (bbox_head (student self)) anchors cls_score
           bbox_pred labels label_weights bbox_targets stride
           (reduce_mean avg))
      (zip al' (zip cs (zip bs (zip ll (zip lwl (zip btl
         (strides (bbox_head (student self)))))))))).
  { clear -Fs. induction Fs as [|a r l rs E _ IH]; simpl; [reflexivity|].
    f_equal; [|exact IH].
    destruct a as (a1 & a2 & a3 & a4 & a5 & a6 & a7). inversion E. reflexivity. }
  rewrite <- Esup. split; [exact Hsup|].
  exists kd. split; [exact Hkd|]. split.
  - eapply Forall2_impl; [exact Fk|].
    intros (a1 & a2 & a3 & a4 & a5) k Hk. exact Hk.
  - unfold assemble. rewrite !map_map. simpl.
    destruct (with_feat_distill self); repeat f_equal.
Qed.
End LossByFeat.

(** ** The loss dictionary *)

Section LossDict.
Context `{Framework}.
Local Open Scope R_scope.

Lemma loss_by_feat_ok tcs tbs tfs cs bs fs rcs rbs gt metas ign
    (self : CrossKDGFL) d s' :
  loss_by_feat tcs tbs tfs cs bs fs rcs rbs gt metas ign self = (Ok d, s') ->
  s' = self /\
  exists tr,
    loss_by_feat_trace tcs tbs tfs cs bs fs rcs rbs gt metas ign self
      = (Ok tr, self) /\
    d = tr_losses tr.
Proof.
  unfold loss_by_feat. intros E.
  apply bind_ok in E as (tr & s1 & Et & E). injection E as <- <-.
  pose proof (read_only_loss_by_feat_trace tcs tbs tfs cs bs fs rcs rbs
                gt metas ign self) as Hs.
  rewrite Et in Hs. simpl in Hs. subst s1. eauto.
Qed.

Lemma loss_by_feat_of_trace tcs tbs tfs cs bs fs rcs rbs gt metas ign
    (self : CrossKDGFL) tr s' :
  loss_by_feat_trace tcs tbs tfs cs bs fs rcs rbs gt metas ign self
    = (Ok tr, s') ->
  loss_by_feat tcs tbs tfs cs bs fs rcs rbs gt metas ign self
    = (Ok (tr_losses tr), self).
Proof.
  intros E. pose proof (loss_by_feat_trace_ok _ _ _ _ _ _ _ _ _ _ _ _ _ _ E)
    as [-> _].
  unfold loss_by_feat, mbind, M_bind. rewrite E. reflexivity.
Qed.

Lemma loss_forward_ok inp (self : CrossKDGFL) fw s' :
  loss_forward inp self = (Ok fw, s') ->
  s' = self /\ forwarded_by self inp fw.
Proof.
  unfold loss_forward. intros E.
  apply bind_ok in E as (self0 & s0 & Eg & E). injection Eg as <- <-.
  apply bind_ok in E as ([[[a1 a2] a3] a4] & s1 & Et & E).
  apply multi_apply_ok in Et as [-> (tea_fwd & _ & Eunz & Ft)].
  2:{ intros [x scale] s0. apply read_only_forward_crosskd_single. }
  injection Eunz as -> -> -> ->.
  apply bind_ok in E as (self0 & s0 & Eg & E). injection Eg as <- <-.
  apply bind_ok in E as ([[[b1 b2] b3] b4] & s1 & Es & E).
  apply multi_apply_ok in Es as [-> (stu_fwd & _ & Eunz & Fs)].
  2:{ intros [x scale] s0. apply read_only_forward_crosskd_single. }
  injection Eunz as -> -> -> ->.
  apply bind_ok in E as (self0 & s0 & Eg & E). injection Eg as <- <-.
  apply bind_ok in E as ([c1 c2] & s1 & Er & E).
  apply multi_apply_ok in Er as [-> (reused & _ & Eunz & Fr)].
  2:{ intros (t1 & t2 & t3 & t4 & t5) s0.
      apply read_only_reuse_teacher_head. }
  injection Eunz as -> ->. injection E as <- <-.
  split; [reflexivity|].
  exists tea_fwd, stu_fwd, reused. simpl.
  repeat split; try reflexivity.
  - eapply Forall2_impl; [exact Ft|]. intros [x scale] r Hr. exact Hr.
  - eapply Forall2_impl; [exact Fs|]. intros [x scale] r Hr. exact Hr.
  - eapply Forall2_impl; [exact Fr|].
    intros (t1 & t2 & t3 & t4 & t5) r Hr. exact Hr.
Qed.

Lemma loss_ok inp smp (self : CrossKDGFL) d s' :
  loss inp smp self = (Ok d, s') ->
  s' = self /\
  exists fw,
    loss_forward inp self = (Ok fw, self) /\
    forwarded_by self inp fw /\
    loss_by_feat (fw_tea_cls_scores fw) (fw_tea_bbox_preds fw) (fw_tea_x fw)
      (fw_stu_cls_scores fw) (fw_stu_bbox_preds fw) (fw_stu_x fw)
      (fw_reused_cls_scores fw) (fw_reused_bbox_preds fw)
      (fst (fst (unpack_gt_instances smp))) (snd (unpack_gt_instances smp))
      (snd (fst (unpack_gt_instances smp))) self = (Ok d, self).
Proof.
  unfold loss. intros E.
  apply bind_ok in E as (fw & s1 & Ef & E).
  pose proof (loss_forward_ok _ _ _ _ Ef) as [-> Hfw].
  destruct (unpack_gt_instances smp) as [[gt ign] metas]. simpl.
  pose proof (loss_by_feat_ok _ _ _ _ _ _ _ _ _ _ _ _ _ _ E) as [-> _].
  split; [reflexivity|]. exists fw. auto.
Qed.

Lemma assemble_lookup (self : CrossKDGFL) sup kd fs tfs :
  let tr := assemble self sup kd fs tfs in
  tr_losses tr !! "loss_cls" = Some (map (fun t => fst (fst (fst t))) sup) /\
  tr_losses tr !! "loss_bbox"
    = Some (map (fun t => snd (fst (fst t)) / tr_new_avg_factor tr) sup) /\
  tr_losses tr !! "loss_dfl"
    = Some (map (fun t => snd (fst t) / tr_new_avg_factor tr) sup) /\
  tr_losses tr !! "loss_cls_kd" = Some (map (fun k => fst (fst k)) kd) /\
  tr_losses tr !! "loss_reg_kd"
    = Some (map (fun k => snd (fst k) / tr_kd_avg_factor tr) kd) /\
  tr_losses tr !! "loss_feat_kd"
    = if with_feat_distill self
      then Some (map (fun '(feat, tea_feat) => loss_feat_kd self feat tea_feat)
                   (zip fs tfs))
      else None.
Proof.
  unfold assemble. simpl.
  destruct (with_feat_distill self); repeat split;
    repeat (first [ rewrite lookup_insert_eq; reflexivity
                  | rewrite lookup_insert_ne by discriminate
                  | apply lookup_empty ]).
Qed.

Lemma assemble_dom (self : CrossKDGFL) sup kd fs tfs :
  dom (tr_losses (assemble self sup kd fs tfs))
  = if with_feat_distill self
    then five_keys ∪ {["loss_feat_kd"]}
    else five_keys.
Proof.
  unfold assemble, five_keys. simpl.
  destruct (with_feat_distill self);
    rewrite !dom_insert_L, dom_empty_L; set_solver.
Qed.

End LossDict.

Section LossClaims.
Context `{Framework}.
Local Open Scope R_scope.

(** C1 (as amended).  The dictionary returned by [loss_by_feat], and so
    the one returned by [loss], has the five components loss_cls,
    loss_bbox, loss_dfl, loss_cls_kd and loss_reg_kd and no other when
    [with_feat_distill] is off; when it is on, the dictionary has a sixth
    component, loss_feat_kd. *)
Theorem loss_dict_keys (self : CrossKDGFL) :
  (forall tcs tbs tfs cs bs fs rcs rbs gt metas ign d s',
     loss_by_feat tcs tbs tfs cs bs fs rcs rbs gt metas ign self
       = (Ok d, s') ->
     dom d = if with_feat_distill self
             then five_keys ∪ {["loss_feat_kd"]} else five_keys) /\
  (forall inp smp d s',
     loss inp smp self = (Ok d, s') ->
     dom d = if with_feat_distill self
             then five_keys ∪ {["loss_feat_kd"]} else five_keys).
Proof.
  assert (Hfeat : forall tcs tbs tfs cs bs fs rcs rbs gt metas ign d s',
     loss_by_feat tcs tbs tfs cs bs fs rcs rbs gt metas ign self
       = (Ok d, s') ->
     dom d = if with_feat_distill self
             then five_keys ∪ {["loss_feat_kd"]} else five_keys).
  { intros tcs tbs tfs cs bs fs rcs rbs gt metas ign d s' E.
    apply loss_by_feat_ok in E as (_ & tr & Et & ->).
    apply loss_by_feat_trace_ok in Et as (_ & _ & _ & _ & kd & _ & _ & ->).
    apply assemble_dom. }
  split; [exact Hfeat|].
  intros inp smp d s' E.
  apply loss_ok in E as (_ & fw & _ & _ & E). eapply Hfeat; exact E.
Qed.

(** C2 (as amended).  The dictionary returned by [loss] holds the
    supervised terms loss_cls, loss_bbox and loss_dfl of the student's own
    predictions, the prediction-mimicking terms loss_cls_kd and loss_reg_kd
    that compare the reused predictions (the teacher's head resumed on the
    student's held features) with the teacher's predictions, and, only
    when [with_feat_distill] is on, the term loss_feat_kd that compares
    the student's FPN features with the teacher's. *)
Theorem loss_terms inp smp (self : CrossKDGFL) d s' :
  loss inp smp self = (Ok d, s') ->
  exists fw kd,
    let gt := fst (fst (unpack_gt_instances smp)) in
    let ign := snd (fst (unpack_gt_instances smp)) in
    let metas := snd (unpack_gt_instances smp) in
    let sup := supervised_levels self (fw_stu_cls_scores fw)
                 (fw_stu_bbox_preds fw) gt metas ign in
    let naf := Rmax (reduce_mean (sum (map snd sup))) 1 in
    forwarded_by self inp fw /\
    d !! "loss_cls" = Some (map (fun t => fst (fst (fst t))) sup) /\
    d !! "loss_bbox" = Some (map (fun t => snd (fst (fst t)) / naf) sup) /\
    d !! "loss_dfl" = Some (map (fun t => snd (fst t) / naf) sup) /\
    Forall2
      (kd_level self (avg_factor_of self (fw_stu_cls_scores fw) gt metas ign))
      (zip (fw_tea_cls_scores fw) (zip (fw_tea_bbox_preds fw)
         (zip (fw_reused_cls_scores fw) (zip (fw_reused_bbox_preds fw)
            (label_weights_of self (fw_stu_cls_scores fw) gt metas ign)))))
      kd /\
    d !! "loss_cls_kd" = Some (map (fun k => fst (fst k)) kd) /\
    d !! "loss_reg_kd"
      = Some (map (fun k => snd (fst k) / sum (map snd kd)) kd) /\
    d !! "loss_feat_kd"
      = if with_feat_distill self
        then Some (map (fun '(feat, tea_feat) =>
                          loss_feat_kd self feat tea_feat)
                     (zip (extract_feat (student self) inp)
                        (extract_feat (teacher self) inp)))
        else None.
Proof.
  intros E. apply loss_ok in E as (_ & fw & _ & Hfw & E).
  apply loss_by_feat_ok in E as (_ & tr & Et & ->).
  apply loss_by_feat_trace_ok in Et as (_ & _ & _ & _ & kd & _ & Fk & ->).
  exists fw, kd. cbv zeta.
  destruct (assemble_lookup self
              (supervised_levels self (fw_stu_cls_scores fw)
                 (fw_stu_bbox_preds fw) (fst (fst (unpack_gt_instances smp)))
                 (snd (unpack_gt_instances smp))
                 (snd (fst (unpack_gt_instances smp))))
              kd (fw_stu_x fw) (fw_tea_x fw))
    as (L1 & L2 & L3 & L4 & L5 & L6).
  repeat (split; [assumption|]).
  rewrite L6. destruct Hfw as (? & ? & ? & -> & -> & _). reflexivity.
Qed.

(** C6.  In [loss_by_feat] every entry of loss_bbox and of loss_dfl is
    the per-level value divided by [new_avg_factor], which is the sum of
    the per-level average factors passed through [reduce_mean] and then
    clamped below at 1; every entry of loss_reg_kd is the per-level value
    divided by [kd_avg_factor], the sum of the per-level totals returned
    by [pred_mimicking_loss_single], each the sum of the non-negative
    regression weights of its level. *)
Theorem loss_normalisation tcs tbs tfs cs bs fs rcs rbs gt metas ign
    (self : CrossKDGFL) tr s' :
  loss_by_feat_trace tcs tbs tfs cs bs fs rcs rbs gt metas ign self
    = (Ok tr, s') ->
  exists kd,
    let sup := supervised_levels self cs bs gt metas ign in
    loss_by_feat tcs tbs tfs cs bs fs rcs rbs gt metas ign self
      = (Ok (tr_losses tr), self) /\
    Forall2 (kd_level self (avg_factor_of self cs gt metas ign))
      (zip tcs (zip tbs (zip rcs (zip rbs
         (label_weights_of self cs gt metas ign))))) kd /\
    Forall (fun k => exists w : list R,
                       Forall (fun v => 0 <= v) w /\ snd k = sum w) kd /\
    tr_new_avg_factor tr = Rmax (reduce_mean (sum (map snd sup))) 1 /\
    tr_kd_avg_factor tr = sum (map snd kd) /\
    tr_losses tr !! "loss_bbox"
      = Some (map (fun t => snd (fst (fst t)) / tr_new_avg_factor tr) sup) /\
    tr_losses tr !! "loss_dfl"
      = Some (map (fun t => snd (fst t) / tr_new_avg_factor tr) sup) /\
    tr_losses tr !! "loss_reg_kd"
      = Some (map (fun k => snd (fst k) / tr_kd_avg_factor tr) kd).
Proof.
  intros E. pose proof (loss_by_feat_of_trace _ _ _ _ _ _ _ _ _ _ _ _ _ _ E).
  apply loss_by_feat_trace_ok in E as (_ & _ & _ & _ & kd & _ & Fk & ->).
  exists kd. cbv zeta.
  destruct (assemble_lookup self (supervised_levels self cs bs gt metas ign)
              kd fs tfs) as (L1 & L2 & L3 & L4 & L5 & L6).
  split; [assumption|]. split; [assumption|]. split.
  { apply Forall_lookup. intros j k Hk.
    destruct (Forall2_lookup_r _ _ _ _ _ Fk Hk) as (level & _ & Hl).
    apply (kd_level_total _ _ _ _ Hl). }
  repeat (split; [first [assumption | reflexivity]|]). exact L5.
Qed.


End LossClaims.

(** *** The dictionary on the small detector *)

Lemma demo_trace_runs (fd : bool) :
  exists tr,
    loss_by_feat_trace [Demo.tea_score] [Demo.tea_box] [Demo.tea_feat]
      [Demo.reused_score] [Demo.reused_box] [Demo.stu_feat]
      [Demo.reused_score] [Demo.reused_box] tt tt tt (Demo.detector 1 fd)
    = (Ok tr, Demo.detector 1 fd).
Proof.
  destruct fd; eexists; unfold loss_by_feat_trace, mbind, M_bind;
    reflexivity.
Qed.

Lemma demo_loss_by_feat_runs (fd : bool) :
  exists d,
    loss_by_feat [Demo.tea_score] [Demo.tea_box] [Demo.tea_feat]
      [Demo.reused_score] [Demo.reused_box] [Demo.stu_feat]
      [Demo.reused_score] [Demo.reused_box] tt tt tt (Demo.detector 1 fd)
    = (Ok d, Demo.detector 1 fd).
Proof.
  destruct (demo_trace_runs fd) as [tr E]. exists (tr_losses tr).
  exact (loss_by_feat_of_trace _ _ _ _ _ _ _ _ _ _ _ _ _ _ E).
Qed.

Lemma demo_loss_runs (idx : nat) (fd : bool) :
  (idx <= 3)%nat ->
  exists d, loss tt tt (Demo.detector idx fd) = (Ok d, Demo.detector idx fd).
Proof.
  intros Hidx.
  destruct idx as [|[|[|[|idx]]]]; [| | | |lia];
    destruct fd; eexists; reflexivity.
Qed.

Lemma loss_dict_keys_witness :
  exists d d',
    loss_by_feat [Demo.tea_score] [Demo.tea_box] [Demo.tea_feat]
      [Demo.reused_score] [Demo.reused_box] [Demo.stu_feat]
      [Demo.reused_score] [Demo.reused_box] tt tt tt (Demo.detector 1 false)
      = (Ok d, Demo.detector 1 false) /\
    dom d = five_keys /\
    loss tt tt (Demo.detector 1 false) = (Ok d', Demo.detector 1 false) /\
    dom d' = five_keys.
Proof.
  destruct (demo_loss_by_feat_runs false) as [d E].
  destruct (demo_loss_runs 1 false) as [d' E']; [lia|].
  exists d, d'. split; [exact E|]. split.
  - exact (proj1 (loss_dict_keys (Demo.detector 1 false))
             _ _ _ _ _ _ _ _ _ _ _ _ _ E).
  - split; [exact E'|].
    exact (proj2 (loss_dict_keys (Demo.detector 1 false)) _ _ _ _ E').
Defined.

(** With [with_feat_distill] on, [loss_by_feat] returns a dictionary whose
    components are not the five of C1: loss_feat_kd is among them. *)
Lemma loss_dict_sixth_key :
  exists d,
    loss_by_feat [Demo.tea_score] [Demo.tea_box] [Demo.tea_feat]
      [Demo.reused_score] [Demo.reused_box] [Demo.stu_feat]
      [Demo.reused_score] [Demo.reused_box] tt tt tt (Demo.detector 1 true)
      = (Ok d, Demo.detector 1 true) /\
    dom d <> five_keys.
Proof.
  destruct (demo_loss_by_feat_runs true) as [d E].
  exists d. split; [exact E|].
  apply loss_by_feat_ok in E as (_ & tr & Et & ->).
  apply loss_by_feat_trace_ok in Et as (_ & _ & _ & _ & kd & _ & _ & ->).
  rewrite assemble_dom. simpl. unfold five_keys. intros Heq.
  assert (Hin : "loss_feat_kd" ∈
            ({["loss_cls"; "loss_bbox"; "loss_dfl"; "loss_cls_kd";
               "loss_reg_kd"]} : gset string))
    by (rewrite <- Heq; set_solver).
  set_solver.
Qed.

Lemma loss_terms_witness :
  exists d,
    loss tt tt (Demo.detector 1 true) = (Ok d, Demo.detector 1 true) /\
    is_Some (d !! "loss_cls") /\
    is_Some (d !! "loss_cls_kd") /\
    d !! "loss_feat_kd" = Some [1%R].
Proof.
  destruct (demo_loss_runs 1 true) as [d E]; [lia|].
  exists d. split; [exact E|].
  destruct (loss_terms _ _ _ _ _ E)
    as (fw & kd & _ & L1 & _ & _ & _ & L4 & _ & L6).
  split; [rewrite L1; eauto|]. split; [rewrite L4; eauto|]. exact L6.
Defined.

(** With [with_feat_distill] off, the dictionary returned by [loss] has no
    feature-matching term. *)
Lemma loss_without_feat_kd :
  exists d,
    loss tt tt (Demo.detector 1 false) = (Ok d, Demo.detector 1 false) /\
    d !! "loss_feat_kd" = None.
Proof.
  destruct (demo_loss_runs 1 false) as [d E]; [lia|].
  exists d. split; [exact E|].
  apply loss_ok in E as (_ & fw & _ & _ & E).
  apply loss_by_feat_ok in E as (_ & tr & Et & ->).
  apply loss_by_feat_trace_ok in Et as (_ & _ & _ & _ & kd & _ & _ & ->).
  apply assemble_lookup.
Qed.

Lemma loss_normalisation_witness :
  exists tr,
    loss_by_feat_trace [Demo.tea_score] [Demo.tea_box] [Demo.tea_feat]
      [Demo.reused_score] [Demo.reused_box] [Demo.stu_feat]
      [Demo.reused_score] [Demo.reused_box] tt tt tt (Demo.detector 1 false)
      = (Ok tr, Demo.detector 1 false) /\
    tr_new_avg_factor tr = Rmax (sum [4%R]) 1 /\
    tr_losses tr !! "loss_bbox" = Some [(2 / tr_new_avg_factor tr)%R] /\
    tr_losses tr !! "loss_dfl" = Some [(3 / tr_new_avg_factor tr)%R].
Proof.
  destruct (demo_trace_runs false) as [tr E].
  exists tr. split; [exact E|].
  destruct (loss_normalisation _ _ _ _ _ _ _ _ _ _ _ _ _ _ E)
    as (kd & _ & _ & _ & Ln & _ & Lb & Ld & _).
  split; [exact Ln|]. split; [exact Lb | exact Ld].
Defined.




(** * Further properties *)

(** ** The layout of [align_scale] *)

Section LayoutRoundTrip.
Local Open Scope nat_scope.

Lemma shape4_inner (N C H W : nat) (x : Tensor4) (n c : nat) :
  shape4 N C H W x -> n < N -> c < C ->
  length (nth c (nth n x []) []) = H /\
  Forall (fun row => length row = W) (nth c (nth n x []) []).
Proof.
  intros [Hn Hx] Hlt Hc.
  rewrite Forall_forall in Hx.
  destruct (Hx (nth n x [])) as [Hs Hch].
  { apply list_elem_of_In, nth_In. lia. }
  rewrite Forall_forall in Hch. apply Hch.
  apply list_elem_of_In, nth_In. lia.
Qed.

Lemma shape4_sample (N C H W : nat) (x : Tensor4) (n : nat) :
  shape4 N C H W x -> n < N -> length (nth n x []) = C.
Proof.
  intros [Hn Hx] Hlt. rewrite Forall_forall in Hx.
  apply Hx. apply list_elem_of_In, nth_In. lia.
Qed.

(** The channel rows, cut back into (C, N, H, W) and permuted, are the
    tensor they were taken from. *)
Lemma tensor_of_channels (N C H W : nat) (x : Tensor4) :
  shape4 N C H W x -> 0 < N -> 0 < C -> 0 < H ->
  permute_1023
    (reshape_CNHW N H W (map (fun c => channel c x) (seq 0 C))) = x.
Proof.
  intros Hx HN HC HH.
  assert (Hrows : Forall (fun r => length r = N * (H * W))
                    (map (fun c => channel c x) (seq 0 C))).
  { apply Forall_forall. intros r Hr.
    apply list_elem_of_fmap in Hr as (c & -> & Hc).
    apply list_elem_of_In, in_seq in Hc.
    eapply channel_length; eauto. lia. }
  assert (Hlen : length (map (fun c => channel c x) (seq 0 C)) = C)
    by (rewrite length_map, length_seq; reflexivity).
  pose proof (reshape_CNHW_shape N C H W _ Hlen Hrows) as Hsh.
  unfold permute_1023. rewrite (shape4_size4 C N H W) by assumption.
  pose proof Hx as [HxN _].
  transitivity (map (fun n => nth n x []) (seq 0 N));
    [|rewrite <- HxN; apply map_nth_seq].
  apply map_ext_in. intros n Hn. apply in_seq in Hn.
  unfold reshape_CNHW. rewrite !map_map.
  transitivity (map (fun c => nth c (nth n x []) []) (seq 0 C)).
  2:{ rewrite <- (shape4_sample N C H W x n Hx) by lia. apply map_nth_seq. }
  apply map_ext_in. intros c Hc. apply in_seq in Hc.
  assert (Hblocks : Forall (fun b => length b = H * W)
                      (map (fun s => concat (nth c s [])) x)).
  { apply (shape4_channel_block N C H W); [exact Hx | lia]. }
  rewrite (nth_map_in _ _ _ []) by (rewrite chunks_length; lia).
  unfold channel.
  replace N with (length (map (fun s => concat (nth c s [])) x)) at 1
    by (rewrite length_map; exact HxN).
  rewrite chunks_concat by assumption.
  rewrite (nth_map_in _ _ _ []) by lia.
  destruct (shape4_inner N C H W x n c) as [Hh Hw]; [exact Hx | lia | lia |].
  rewrite <- Hh. apply chunks_concat. exact Hw.
Qed.

Lemma nth_imap {A B} (f : nat -> A -> B) (l : list A) (i : nat) (d : A) (d' : B) :
  f i d = d' -> nth i (imap f l) d' = f i (nth i l d).
Proof.
  intros Hd. rewrite !nth_lookup, list_lookup_imap.
  destruct (l !! i); simpl; congruence.
Qed.

Lemma channel_map_channels (g : nat -> R -> R) (x : Tensor4) (c : nat) :
  channel c (map_channels g x) = map (g c) (channel c x).
Proof.
  unfold channel, map_channels. rewrite map_map.
  induction x as [|s x IH]; [reflexivity|].
  simpl. rewrite map_app, IH. f_equal.
  rewrite (nth_imap _ s c [] []) by reflexivity.
  induction (nth c s []) as [|row ch IHch]; [reflexivity|].
  simpl. rewrite map_app, IHch. reflexivity.
Qed.

Lemma map_channels_shape (N C H W : nat) (g : nat -> R -> R) (x : Tensor4) :
  shape4 N C H W x -> shape4 N C H W (map_channels g x).
Proof.
  intros [Hn Hx]. unfold map_channels. split.
  - rewrite length_map. exact Hn.
  - apply Forall_forall. intros s' Hs'.
    apply list_elem_of_fmap in Hs' as (s & -> & Hs).
    rewrite Forall_forall in Hx. destruct (Hx s Hs) as [Hc Hch].
    split; [rewrite length_imap; exact Hc|].
    apply Forall_lookup. intros c ch' Hch'.
    rewrite list_lookup_imap in Hch'.
    destruct (s !! c) as [ch|] eqn:Ech; [|discriminate].
    simpl in Hch'. injection Hch' as <-.
    rewrite Forall_forall in Hch.
    destruct (Hch ch) as [Hh Hrows].
    { eapply list_elem_of_lookup_2; eauto. }
    split; [rewrite length_map; exact Hh|].
    apply Forall_forall. intros r' Hr'.
    apply list_elem_of_fmap in Hr' as (r & -> & Hr).
    rewrite length_map. rewrite Forall_forall in Hrows. auto.
Qed.

End LayoutRoundTrip.

(** ** [align_scale], entry by entry *)

Section AlignEntrywise.
Local Open Scope nat_scope.

Lemma tensor_ext_channels (N C H W : nat) (x y : Tensor4) :
  shape4 N C H W x -> shape4 N C H W y -> 0 < N -> 0 < C -> 0 < H ->
  (forall c, c < C -> channel c x = channel c y) -> x = y.
Proof.
  intros Hx Hy HN HC HH Hch.
  rewrite <- (tensor_of_channels N C H W x) by assumption.
  rewrite <- (tensor_of_channels N C H W y) by assumption.
  do 2 f_equal. apply map_ext_in. intros c Hc. apply in_seq in Hc.
  apply Hch. lia.
Qed.

Lemma aligned_row_entries (stu tea : Tensor4) (c : nat) :
  aligned_row (channel c stu) (channel c tea)
  = map (align_entry stu tea c) (channel c stu).
Proof. unfold aligned_row. rewrite map_map. reflexivity. Qed.

Lemma align_scale_closed_form (N C H W N' H' W' : nat) (stu tea : Tensor4) :
  shape4 N C H W stu -> shape4 N' C H' W' tea ->
  0 < C -> 0 < N -> 0 < H -> 0 < N' -> 0 < H' ->
  align_scale stu tea = Ok (map_channels (align_entry stu tea) stu).
Proof.
  intros Hs Ht HC HN HH HN' HH'.
  destruct (align_scale_channels N C H W N' H' W' stu tea)
    as (out & -> & Hsh & Hch); try assumption.
  f_equal. apply (tensor_ext_channels N C H W); try assumption.
  - now apply map_channels_shape.
  - intros c Hc. rewrite (Hch c Hc), channel_map_channels.
    apply aligned_row_entries.
Qed.

Lemma entry_map_channels (N C H W : nat) (g : nat -> R -> R) (x : Tensor4)
    (n c h w : nat) :
  shape4 N C H W x -> n < N -> c < C -> h < H -> w < W ->
  entry (map_channels g x) n c h w = g c (entry x n c h w).
Proof.
  intros Hx Hn Hc Hh Hw. unfold entry, map_channels.
  pose proof Hx as [HxN _].
  rewrite (nth_map_in _ _ _ []) by lia.
  rewrite (nth_imap _ _ c [] []) by reflexivity.
  destruct (shape4_inner N C H W x n c Hx Hn Hc) as [Hlen Hrows].
  rewrite (nth_map_in _ _ _ []) by lia.
  rewrite (nth_map_in _ _ _ 0%R); [reflexivity|].
  rewrite Forall_forall in Hrows. rewrite Hrows; [exact Hw|].
  apply list_elem_of_In, nth_In. lia.
Qed.

Lemma positive_dims (N H W : nat) :
  2 <= N * H * W -> 0 < N /\ 0 < H /\ 0 < W.
Proof. destruct N, H, W; try lia; rewrite ?Nat.mul_0_r; lia. Qed.

End AlignEntrywise.

Section AlignExtras.
Local Open Scope R_scope.

(** X1.  The view [permute(1, 0, 2, 3).reshape(C, -1)] taken by
    [align_scale] and the way back, [reshape(C, N, H, W).permute(1, 0, 2,
    3)], are inverse to each other on a well-formed tensor: the rows of
    the view are the channels, and cutting them back returns the tensor. *)
Theorem channel_view_round_trip (N C H W : nat) (x : Tensor4) :
  shape4 N C H W x -> (0 < N)%nat -> (0 < C)%nat -> (0 < H)%nat ->
  exists rows,
    reshape_rows C (flatten4 (permute_1023 x)) = Ok rows /\
    length rows = C /\
    (forall c, (c < C)%nat -> rows !! c = Some (channel c x)) /\
    permute_1023 (reshape_CNHW N H W rows) = x.
Proof.
  intros Hx HN HC HH.
  exists (map (fun c => channel c x) (seq 0 C)).
  split; [now apply (rows_of_tensor N C H W)|].
  split; [rewrite length_map, length_seq; reflexivity|].
  split; [|now apply tensor_of_channels].
  intros c Hc. rewrite list_lookup_fmap, lookup_seq_lt by lia. reflexivity.
Qed.

(** X2.  [align_scale] keeps every entry at its position: entry
    (n, c, h, w) of the result is the student's entry (n, c, h, w),
    centred by the student's mean of channel c, divided by the student's
    deviation of channel c plus 1e-6, scaled by the teacher's deviation
    and shifted by the teacher's mean of channel c. *)
Theorem align_scale_entrywise (N C H W N' H' W' : nat) (stu tea : Tensor4) :
  shape4 N C H W stu -> shape4 N' C H' W' tea ->
  (0 < C)%nat -> (2 <= N * H * W)%nat -> (2 <= N' * H' * W')%nat ->
  align_scale stu tea = Ok (map_channels (align_entry stu tea) stu) /\
  forall n c h w, (n < N)%nat -> (c < C)%nat -> (h < H)%nat -> (w < W)%nat ->
    entry (map_channels (align_entry stu tea) stu) n c h w
    = (entry stu n c h w - mean (channel c stu))
      / (std (channel c stu) + eps)
      * std (channel c tea) + mean (channel c tea).
Proof.
  intros Hs Ht HC Hn Hn'.
  destruct (positive_dims _ _ _ Hn) as (HN & HH & HW).
  destruct (positive_dims _ _ _ Hn') as (HN' & HH' & HW').
  split.
  - now apply (align_scale_closed_form N C H W N' H' W').
  - intros n c h w Hln Hlc Hlh Hlw.
    rewrite (entry_map_channels N C H W) by assumption. reflexivity.
Qed.

Lemma mean_constant (v0 : R) (l : list R) :
  l <> [] -> Forall (fun v => v = v0) l -> mean l = v0.
Proof.
  intros Hne Hl. unfold mean. rewrite (sum_constant v0) by assumption.
  assert (INR (length l) <> 0).
  { apply not_0_INR. destruct l; [congruence | discriminate]. }
  field. assumption.
Qed.

(** X3.  A student channel whose entries are all equal comes out of
    [align_scale] as the teacher's mean of that channel at every
    position (its deviation is 0 and the 1e-6 keeps the division
    defined). *)
Theorem align_scale_constant_channel (N C H W N' H' W' : nat)
    (stu tea : Tensor4) (c : nat) (v0 : R) :
  shape4 N C H W stu -> shape4 N' C H' W' tea ->
  (c < C)%nat -> (2 <= N * H * W)%nat -> (2 <= N' * H' * W')%nat ->
  Forall (fun v => v = v0) (channel c stu) ->
  exists out,
    align_scale stu tea = Ok out /\
    Forall (fun v => v = mean (channel c tea)) (channel c out).
Proof.
  intros Hs Ht Hc Hn Hn' Hconst.
  destruct (positive_dims _ _ _ Hn) as (HN & HH & HW).
  destruct (positive_dims _ _ _ Hn') as (HN' & HH' & HW').
  eexists. split.
  { apply (align_scale_closed_form N C H W N' H' W'); try assumption. lia. }
  rewrite channel_map_channels.
  assert (Hne : channel c stu <> []).
  { intros E. pose proof (channel_length N C H W stu c Hs Hc) as Hl.
    rewrite E in Hl. simpl in Hl. nia. }
  apply Forall_forall. intros v Hv.
  apply list_elem_of_fmap in Hv as (u & -> & Hu).
  rewrite Forall_forall in Hconst. rewrite (Hconst u Hu).
  unfold align_entry. rewrite (mean_constant v0) by (try apply Forall_forall; assumption).
  pose proof (std_nonneg (channel c stu)). pose proof eps_pos.
  field. lra.
Qed.

(** X4.  [align_scale] uses the teacher only through the mean and the
    deviation of its channels: two teacher features, of whatever batch
    and spatial size, with the same per-channel means and deviations give
    the same result. *)
Theorem align_scale_teacher_statistics (N C H W N1 H1 W1 N2 H2 W2 : nat)
    (stu tea1 tea2 : Tensor4) :
  shape4 N C H W stu -> shape4 N1 C H1 W1 tea1 -> shape4 N2 C H2 W2 tea2 ->
  (0 < C)%nat -> (2 <= N * H * W)%nat ->
  (2 <= N1 * H1 * W1)%nat -> (2 <= N2 * H2 * W2)%nat ->
  (forall c, (c < C)%nat ->
     mean (channel c tea1) = mean (channel c tea2) /\
     std (channel c tea1) = std (channel c tea2)) ->
  align_scale stu tea1 = align_scale stu tea2 /\
  exists out, align_scale stu tea1 = Ok out.
Proof.
  intros Hs Ht1 Ht2 HC Hn Hn1 Hn2 Hstat.
  destruct (positive_dims _ _ _ Hn) as (HN & HH & HW).
  destruct (positive_dims _ _ _ Hn1) as (HN1 & HH1 & HW1).
  destruct (positive_dims _ _ _ Hn2) as (HN2 & HH2 & HW2).
  rewrite (align_scale_closed_form N C H W N1 H1 W1) by assumption.
  rewrite (align_scale_closed_form N C H W N2 H2 W2) by assumption.
  split; [|eauto]. f_equal.
  apply (tensor_ext_channels N C H W); try assumption;
    try now apply map_channels_shape.
  intros c Hc. rewrite !channel_map_channels.
  apply map_ext. intros v. unfold align_entry.
  destruct (Hstat c Hc) as [-> ->]. reflexivity.
Qed.

End AlignExtras.

Section AlignShift.
Local Open Scope R_scope.

Lemma shift4_map_channels (b : R) (x : Tensor4) :
  shift4 b x = map_channels (fun _ v => v + b) x.
Proof.
  unfold shift4, map_channels. apply map_ext. intros s.
  symmetry. apply (imap_const (map (map (fun v => v + b)))).
Qed.

Lemma mean_shift (b : R) (l : list R) :
  l <> [] -> mean (map (fun v => v + b) l) = mean l + b.
Proof.
  intros Hl.
  rewrite (map_ext _ (fun v => 1 * v + b)) by (intros; lra).
  rewrite mean_affine by assumption. lra.
Qed.

Lemma std_shift (b : R) (l : list R) :
  l <> [] -> std (map (fun v => v + b) l) = std l.
Proof.
  intros Hl.
  rewrite (map_ext _ (fun v => 1 * v + b)) by (intros; lra).
  rewrite std_affine by (assumption || lra). lra.
Qed.

(** X5.  Adding one constant to every entry of the student feature does
    not change what [align_scale] returns: the student's own mean is
    taken off before anything else. *)
Theorem align_scale_shift_invariant (N C H W N' H' W' : nat)
    (stu tea : Tensor4) (b : R) :
  shape4 N C H W stu -> shape4 N' C H' W' tea ->
  (0 < C)%nat -> (2 <= N * H * W)%nat -> (2 <= N' * H' * W')%nat ->
  align_scale (shift4 b stu) tea = align_scale stu tea /\
  exists out, align_scale stu tea = Ok out.
Proof.
  intros Hs Ht HC Hn Hn'.
  destruct (positive_dims _ _ _ Hn) as (HN & HH & HW).
  destruct (positive_dims _ _ _ Hn') as (HN' & HH' & HW').
  assert (Hsh : shape4 N C H W (shift4 b stu)).
  { rewrite shift4_map_channels. now apply map_channels_shape. }
  rewrite (align_scale_closed_form N C H W N' H' W' (shift4 b stu))
    by assumption.
  rewrite (align_scale_closed_form N C H W N' H' W' stu) by assumption.
  split; [|eauto]. f_equal.
  apply (tensor_ext_channels N C H W); try assumption;
    try now apply map_channels_shape.
  intros c Hc. rewrite !channel_map_channels.
  assert (Hch : channel c (shift4 b stu)
                = map (fun v => v + b) (channel c stu)).
  { rewrite shift4_map_channels. apply channel_map_channels. }
  assert (Hne : channel c stu <> []).
  { intros E. pose proof (channel_length N C H W stu c Hs Hc) as Hl.
    rewrite E in Hl. simpl in Hl. nia. }
  rewrite Hch at 1. rewrite map_map. apply map_ext. intros v.
  unfold align_entry. rewrite Hch, mean_shift, std_shift by assumption.
  pose proof (std_nonneg (channel c stu)). pose proof eps_pos.
  field. lra.
Qed.

Lemma reshape_rows_parts (C : nat) (flat : list R) (rows : list (list R)) :
  reshape_rows C flat = Ok rows ->
  length rows = C /\
  Forall (fun r => length r = (length flat / C)%nat) rows /\
  concat rows = flat.
Proof.
  unfold reshape_rows. destruct (Nat.eqb_spec C 0); [discriminate|].
  destruct (Nat.eqb_spec (length flat mod C) 0) as [Hm|]; [|discriminate].
  intros E. injection E as <-.
  assert (Hl : length flat = (C * (length flat / C))%nat).
  { pose proof (Nat.div_mod_eq (length flat) C). lia. }
  split; [apply chunks_length|]. split.
  - apply chunks_Forall_length. exact Hl.
  - apply concat_chunks. exact Hl.
Qed.

Lemma flatten4_permute_1023_length (N C H W : nat) (x : Tensor4) :
  shape4 N C H W x -> (0 < N)%nat -> (0 < C)%nat -> (0 < H)%nat ->
  length (flatten4 (permute_1023 x)) = (C * (N * (H * W)))%nat.
Proof.
  intros Hx HN HC HH.
  pose proof (rows_of_tensor N C H W x Hx HN HC HH) as E.
  apply reshape_rows_parts in E as (Hl & Hall & <-).
  rewrite (length_concat_uniform (N * (H * W))).
  - rewrite length_map, length_seq. reflexivity.
  - apply Forall_forall. intros r Hr.
    apply list_elem_of_fmap in Hr as (c & -> & Hc).
    apply list_elem_of_In, in_seq in Hc.
    eapply channel_length; eauto. lia.
Qed.

(** X6.  [align_scale] raises [RuntimeError] when the teacher feature
    cannot be viewed as C rows, C the student's channel count: its number
    of entries is not a multiple of C. *)
Theorem align_scale_teacher_mismatch (N C H W N' C' H' W' : nat)
    (stu tea : Tensor4) :
  shape4 N C H W stu -> shape4 N' C' H' W' tea ->
  (0 < N)%nat -> (0 < C)%nat -> (0 < H)%nat ->
  (0 < N')%nat -> (0 < C')%nat -> (0 < H')%nat ->
  ((C' * (N' * (H' * W'))) mod C <> 0)%nat ->
  align_scale stu tea = Raise RuntimeError.
Proof.
  intros Hs Ht HN HC HH HN' HC' HH' Hmod.
  unfold align_scale. rewrite (shape4_size4 N C H W) by assumption.
  cbv iota beta.
  rewrite (rows_of_tensor N C H W stu) by assumption.
  unfold mbind at 1, Res_bind at 1. cbv beta iota.
  unfold reshape_rows.
  rewrite (flatten4_permute_1023_length N' C' H' W') by assumption.
  destruct (Nat.eqb_spec C 0); [lia|].
  destruct (Nat.eqb_spec ((C' * (N' * (H' * W'))) mod C) 0); [lia|].
  reflexivity.
Qed.

End AlignShift.

(** ** More on the heads *)

Section HeadExtras.
Context `{Framework}.

(** X7.  Holding features does not touch the predictions:
    [forward_crosskd_single] never raises, and its scores and box
    predictions are those of the plain head (all convs with their
    activations, then [gfl_cls], respectively [gfl_reg] and the scale),
    whatever [reused_teacher_head_idx] is. *)
Theorem forward_predictions_plain (self : CrossKDGFL) (module : ModuleRef)
    x scale (idx' : nat) :
  let head := bbox_head (deref module self) in
  exists cls_hold reg_hold cls_hold' reg_hold',
    forward_crosskd_single x scale module self
    = (Ok (gfl_cls head (run_convs (cls_convs head) x),
           scale (gfl_reg head (run_convs (reg_convs head) x)),
           cls_hold, reg_hold), self) /\
    forward_crosskd_single x scale module (with_idx self idx')
    = (Ok (gfl_cls head (run_convs (cls_convs head) x),
           scale (gfl_reg head (run_convs (reg_convs head) x)),
           cls_hold', reg_hold'), with_idx self idx').
Proof.
  intros head. do 4 eexists. split.
  - apply forward_crosskd_single_eq.
  - rewrite forward_crosskd_single_eq.
    destruct module; reflexivity.
Qed.

Lemma firstn_S_nth_error {A} (l : list A) (k : nat) (c : A) :
  nth_error l k = Some c -> firstn (S k) l = firstn k l ++ [c].
Proof.
  revert k. induction l as [|y l IH]; intros [|k] E; try discriminate.
  - injection E as ->. reflexivity.
  - simpl in E. simpl. f_equal. apply IH. exact E.
Qed.

Lemma activated_held_output c pre :
  activated c (held_output c pre) = activate c pre.
Proof. unfold activated, held_output. destruct (inplace c); reflexivity. Qed.

Lemma held_at_step convs k x c c' h :
  (1 <= k)%nat ->
  nth_error convs (k - 1) = Some c ->
  nth_error convs k = Some c' ->
  held_at convs k x = Some h ->
  held_at convs (S k) x
  = Some (held_output c' (conv_norm c' (activated c h))).
Proof.
  intros Hk Ec Ec' Eh. destruct k as [|j]; [lia|].
  simpl in Ec. rewrite Nat.sub_0_r in Ec.
  unfold held_at in *. rewrite Ec in Eh. rewrite Ec'.
  injection Eh as <-. do 3 f_equal.
  rewrite (firstn_S_nth_error _ _ _ Ec).
  rewrite run_convs_app, activated_held_output. reflexivity.
Qed.

(** X8.  The features held for two consecutive values of
    [reused_teacher_head_idx] are one layer apart.  The activated output
    of conv [k] is recovered from what is held for [k]: it is the held
    tensor itself when the activation of conv [k] works in place, and its
    activation otherwise.  What is held for [k + 1] is conv [k + 1]
    (without its activation) of that output, activated in turn when the
    activation of conv [k + 1] works in place.  The predictions are the
    same for both. *)
Theorem held_features_step (self : CrossKDGFL) (module : ModuleRef) x scale
    (k : nat) c_cls c_cls' c_reg c_reg' :
  let head := bbox_head (deref module self) in
  (1 <= k)%nat ->
  nth_error (cls_convs head) (k - 1) = Some c_cls ->
  nth_error (cls_convs head) k = Some c_cls' ->
  nth_error (reg_convs head) (k - 1) = Some c_reg ->
  nth_error (reg_convs head) k = Some c_reg' ->
  exists cls bbox cls_hold reg_hold,
    forward_crosskd_single x scale module (with_idx self k)
    = (Ok (cls, bbox, cls_hold, reg_hold), with_idx self k) /\
    forward_crosskd_single x scale module (with_idx self (S k))
    = (Ok (cls, bbox,
           (let y := conv_norm c_cls'
                       (if inplace c_cls then cls_hold
                        else activate c_cls cls_hold) in
            if inplace c_cls' then activate c_cls' y else y),
           (let y := conv_norm c_reg'
                       (if inplace c_reg then reg_hold
                        else activate c_reg reg_hold) in
            if inplace c_reg' then activate c_reg' y else y)),
       with_idx self (S k)).
Proof.
  intros head Hk Ec Ec' Er Er'.
  assert (Hh : forall idx, bbox_head (deref module (with_idx self idx)) = head)
    by (intros idx; destruct module; reflexivity).
  assert (Hlc : (k < length (cls_convs head))%nat)
    by (apply nth_error_Some; congruence).
  assert (Hlr : (k < length (reg_convs head))%nat)
    by (apply nth_error_Some; congruence).
  destruct (held_at_in_range (cls_convs head) k x) as [ch Ech]; [lia|].
  destruct (held_at_in_range (reg_convs head) k x) as [rh Erh]; [lia|].
  do 2 eexists. exists ch, rh. split.
  - rewrite forward_crosskd_single_eq, Hh. simpl reused_teacher_head_idx.
    rewrite Ech, Erh. reflexivity.
  - rewrite forward_crosskd_single_eq, Hh. simpl reused_teacher_head_idx.
    rewrite (held_at_step _ _ _ _ _ _ Hk Ec Ec' Ech).
    rewrite (held_at_step _ _ _ _ _ _ Hk Er Er' Erh). reflexivity.
Qed.

(** X9.  With [reused_teacher_head_idx] at or beyond [stacked_convs] (and
    not 0), [reuse_teacher_head] re-runs no conv of the teacher: the
    aligned features go through the ReLU and straight into [gfl_cls],
    respectively [gfl_reg] and the scale, and no conv list is indexed. *)
Theorem reuse_teacher_head_no_conv tc tr sc sr scale (self : CrossKDGFL)
    ac ar :
  let th := bbox_head (teacher self) in
  (stacked_convs th <= reused_teacher_head_idx self)%nat ->
  reused_teacher_head_idx self <> 0%nat ->
  align_scale sc tc = Ok ac ->
  align_scale sr tr = Ok ar ->
  reuse_teacher_head tc tr sc sr scale self
  = (Ok (gfl_cls th (relu ac), scale (gfl_reg th (relu ar))), self).
Proof.
  intros th Hge Hnz Eac Ear.
  unfold reuse_teacher_head, mbind, M_bind, get, lift. rewrite Eac, Ear.
  unfold range. fold th.
  replace (stacked_convs th - reused_teacher_head_idx self)%nat with 0%nat
    by lia.
  destruct (Nat.eqb_spec (reused_teacher_head_idx self) 0); [contradiction|].
  reflexivity.
Qed.

Lemma reuse_loop_short (head : Head) (k a : nat) cf rf :
  (0 < k)%nat ->
  (length (cls_convs head) < a + k \/ length (reg_convs head) < a + k)%nat ->
  reuse_loop head (seq a k) cf rf = Raise IndexError.
Proof.
  revert a cf rf. induction k as [|k IH]; intros a cf rf Hk Hshort; [lia|].
  simpl reuse_loop. unfold index.
  destruct (nth_error (cls_convs head) a) as [cc|] eqn:Ec; [|reflexivity].
  simpl.
  destruct (nth_error (reg_convs head) a) as [rc|] eqn:Er; [|reflexivity].
  simpl.
  assert (a < length (cls_convs head))%nat
    by (apply nth_error_Some; congruence).
  assert (a < length (reg_convs head))%nat
    by (apply nth_error_Some; congruence).
  apply IH; lia.
Qed.

(** X10.  [reuse_teacher_head] raises [IndexError] when it has a conv to
    re-run ([reused_teacher_head_idx < stacked_convs]) and the teacher's
    head holds fewer than [stacked_convs] convs in [cls_convs] or in
    [reg_convs]. *)
Theorem reuse_teacher_head_index_error tc tr sc sr scale
    (self : CrossKDGFL) ac ar :
  let th := bbox_head (teacher self) in
  (reused_teacher_head_idx self < stacked_convs th)%nat ->
  (length (cls_convs th) < stacked_convs th \/
   length (reg_convs th) < stacked_convs th)%nat ->
  align_scale sc tc = Ok ac ->
  align_scale sr tr = Ok ar ->
  reuse_teacher_head tc tr sc sr scale self = (Raise IndexError, self).
Proof.
  intros th Hlt Hshort Eac Ear.
  unfold reuse_teacher_head, mbind, M_bind, get, lift. rewrite Eac, Ear.
  unfold range. fold th.
  destruct (reused_teacher_head_idx self =? 0)%nat;
    rewrite reuse_loop_short by lia; reflexivity.
Qed.

End HeadExtras.

(** ** More on the prediction-mimicking loss *)

Section LocationCount.
Local Open Scope R_scope.

Lemma reshape_cols_runs (K n : nat) (flat : list R) :
  (0 < K)%nat -> length flat = (n * K)%nat ->
  exists rows, reshape_cols K flat = Ok rows /\ length rows = n.
Proof.
  intros HK Hl. unfold reshape_cols. rewrite Hl.
  destruct (Nat.eqb_spec K 0); [lia|].
  rewrite Nat.Div0.mod_mul, Nat.eqb_refl, Nat.div_mul by lia.
  eexists. split; [reflexivity | apply chunks_length].
Qed.

Lemma locations_count (N C H W : nat) (x : Tensor4) :
  shape4 N C H W x -> (0 < N)%nat -> (0 < C)%nat -> (0 < H)%nat ->
  length (locations x) = (N * (H * W))%nat.
Proof.
  intros Hx HN HC HH. unfold locations.
  rewrite (shape4_size4 N C H W) by assumption.
  rewrite flat_map_concat_map.
  rewrite (length_concat_uniform (H * W)).
  - rewrite length_map. destruct Hx as [-> _]. reflexivity.
  - apply Forall_forall. intros b Hb.
    apply list_elem_of_fmap in Hb as (s & -> & _).
    rewrite flat_map_concat_map.
    rewrite (length_concat_uniform W).
    + rewrite length_map, length_seq. reflexivity.
    + apply Forall_forall. intros r Hr.
      apply list_elem_of_fmap in Hr as (h & -> & _).
      rewrite length_map, length_seq. reflexivity.
Qed.

Lemma flatten4_permute_0231_length (N C H W : nat) (x : Tensor4) :
  shape4 N C H W x -> (0 < N)%nat -> (0 < C)%nat -> (0 < H)%nat ->
  length (flatten4 (permute_0231 x)) = (N * (H * W) * C)%nat.
Proof.
  intros Hx HN HC HH. rewrite flatten4_locations.
  rewrite (length_concat_uniform C).
  - rewrite (locations_count N C H W) by assumption. reflexivity.
  - apply locations_length. destruct Hx as [_ Hx].
    eapply Forall_impl; [exact Hx|]. intros s [Hs _]. exact Hs.
Qed.

End LocationCount.

Section PredMimickingExtras.
Context `{Framework}.
Local Open Scope R_scope.

(** X11.  [pred_mimicking_loss_single] raises [IndexError] when the four
    predictions can be viewed as rows but the label weights are not one
    per row of teacher scores. *)
Theorem pred_mimicking_mask_mismatch tc tb rc rb lw avg (self : CrossKDGFL)
    scores rcr tbr rbr :
  let K := cls_out_channels (bbox_head (student self)) in
  let r := reg_max (bbox_head (student self)) in
  reshape_cols K (flatten4 (permute_0231 tc)) = Ok scores ->
  reshape_cols K (flatten4 (permute_0231 rc)) = Ok rcr ->
  reshape_cols (r + 1) (flatten4 (permute_0231 tb)) = Ok tbr ->
  reshape_cols (r + 1) (flatten4 (permute_0231 rb)) = Ok rbr ->
  length scores <> length (concat lw) ->
  pred_mimicking_loss_single tc tb rc rb lw avg self
  = (Raise IndexError, self).
Proof.
  intros K r E1 E2 E3 E4 Hne.
  unfold pred_mimicking_loss_single, mbind, M_bind, get, lift.
  fold K. fold r. rewrite E1, E2, E3, E4.
  unfold mask_zero. rewrite length_map.
  destruct (Nat.eqb_spec (length scores) (length (concat lw)));
    [contradiction | reflexivity].
Qed.

Lemma pred_mimicking_returns (N A Hh W Cb : nat) tc tb rc rb lw avg
    (self : CrossKDGFL) :
  let K := cls_out_channels (bbox_head (student self)) in
  let r := reg_max (bbox_head (student self)) in
  shape4 N (A * K) Hh W tc -> shape4 N (A * K) Hh W rc ->
  shape4 N (Cb * (r + 1)) Hh W tb -> shape4 N (Cb * (r + 1)) Hh W rb ->
  (0 < N)%nat -> (0 < Hh)%nat -> (0 < A)%nat -> (0 < K)%nat -> (0 < Cb)%nat ->
  length (concat lw) = (N * (Hh * W) * A)%nat ->
  exists lck lrk w,
    pred_mimicking_loss_single tc tb rc rb lw avg self
    = (Ok (lck, lrk, sum w), self) /\
    length w = (N * (Hh * W) * A)%nat.
Proof.
  intros K r Htc Hrc Htb Hrb HN HH HA HK HCb Hlw.
  assert (HAK : (0 < A * K)%nat) by nia.
  assert (HCr : (0 < Cb * (r + 1))%nat) by nia.
  destruct (reshape_cols_runs K (N * (Hh * W) * A)
              (flatten4 (permute_0231 tc))) as (scores & E1 & L1);
    [exact HK | rewrite (flatten4_permute_0231_length N (A * K) Hh W)
                  by assumption; lia |].
  destruct (reshape_cols_runs K (N * (Hh * W) * A)
              (flatten4 (permute_0231 rc))) as (rcr & E2 & L2);
    [exact HK | rewrite (flatten4_permute_0231_length N (A * K) Hh W)
                  by assumption; lia |].
  destruct (reshape_cols_runs (r + 1) (N * (Hh * W) * Cb)
              (flatten4 (permute_0231 tb))) as (tbr & E3 & L3);
    [lia | rewrite (flatten4_permute_0231_length N (Cb * (r + 1)) Hh W)
             by assumption; lia |].
  destruct (reshape_cols_runs (r + 1) (N * (Hh * W) * Cb)
              (flatten4 (permute_0231 rb))) as (rbr & E4 & L4);
    [lia | rewrite (flatten4_permute_0231_length N (Cb * (r + 1)) Hh W)
             by assumption; lia |].
  unfold pred_mimicking_loss_single, mbind, M_bind, get, lift.
  fold K. fold r. rewrite E1, E2, E3, E4.
  unfold mask_zero. rewrite length_map.
  destruct (Nat.eqb_spec (length scores) (length (concat lw))); [|lia].
  do 3 eexists. split; [reflexivity|].
  rewrite length_zip_with, length_map. lia.
Qed.


Lemma sum_le_length (l : list R) :
  Forall (fun v => 0 <= v <= 1) l -> 0 <= sum l <= INR (length l).
Proof.
  induction 1 as [|v l Hv _ IH].
  - rewrite sum_nil. simpl. lra.
  - rewrite sum_cons. simpl length. rewrite S_INR. lra.
Qed.

Lemma sum_expand4 (w : list R) : sum (expand4 w) = 4 * sum w.
Proof.
  unfold expand4. induction w as [|v w IH].
  - simpl. rewrite sum_nil. lra.
  - simpl flat_map. rewrite !sum_cons, IH. lra.
Qed.

Lemma masked_weights_unit (rows : list (list R)) (lw w : list R) :
  mask_zero (map (fun row => sigmoid (row_max row)) rows) lw = Ok w ->
  Forall (fun v => 0 <= v <= 1) w.
Proof.
  intros E. apply Forall_lookup. intros i v Hv.
  pose proof (mask_zero_length _ _ _ E) as [Hl1 Hl2].
  rewrite length_map in Hl2.
  assert (Hi : (i < length w)%nat) by (eapply lookup_lt_Some; eauto).
  destruct (lookup_lt_is_Some_2 rows i) as [row Hrow]; [lia|].
  destruct (lookup_lt_is_Some_2 lw i) as [li Hli]; [lia|].
  erewrite mask_zero_lookup in Hv; [| exact E | | exact Hli].
  2:{ rewrite list_lookup_fmap, Hrow. reflexivity. }
  injection Hv as <-. destruct (Req_dec_T li 0); [lra|].
  pose proof (sigmoid_pos (row_max row)).
  pose proof (sigmoid_lt_1 (row_max row)). lra.
Qed.

(** X13.  Every per-location weight of the regression distillation loss
    lies between 0 and 1, so the factor returned for normalisation is
    between 0 and the number of locations; the weight vector handed to
    the loss sums to four times that factor. *)
Theorem reg_kd_weight_bounds tc tb rc rb lw avg (self : CrossKDGFL)
    lck lrk f s' :
  pred_mimicking_loss_single tc tb rc rb lw avg self = (Ok (lck, lrk, f), s') ->
  exists tbr rbr w,
    lrk = loss_reg_kd self rbr tbr (expand4 w) 4 /\
    f = sum w /\
    length w = length (concat lw) /\
    Forall (fun v => 0 <= v <= 1) w /\
    0 <= f <= INR (length (concat lw)) /\
    sum (expand4 w) = 4 * f.
Proof.
  intros E.
  apply pred_mimicking_loss_single_ok in E
    as (_ & scores & rcr & tbr & rbr & w & _ & _ & _ & _ & Em & Ek).
  injection Ek as -> -> ->.
  exists tbr, rbr, w.
  pose proof (masked_weights_unit _ _ _ Em) as Hw.
  pose proof (mask_zero_length _ _ _ Em) as [Hl _].
  split; [reflexivity|]. split; [reflexivity|]. split; [exact Hl|].
  split; [exact Hw|]. split.
  - rewrite <- Hl. now apply sum_le_length.
  - apply sum_expand4.
Qed.

End PredMimickingExtras.

(** ** More on the loss dictionary *)

Section LossExtras.
Context `{Framework}.
Local Open Scope R_scope.

(** X14.  When every label weight of every level is zero,
    [kd_avg_factor] is 0: the entries of loss_reg_kd are then quotients
    by zero. *)
Theorem kd_avg_factor_zero tcs tbs tfs cs bs fs rcs rbs gt metas ign
    (self : CrossKDGFL) tr s' :
  loss_by_feat_trace tcs tbs tfs cs bs fs rcs rbs gt metas ign self
    = (Ok tr, s') ->
  Forall (fun lw => Forall (fun v => v = 0) (concat lw))
    (label_weights_of self cs gt metas ign) ->
  tr_kd_avg_factor tr = 0 /\
  exists kd : list (R * R * R),
    tr_losses tr !! "loss_reg_kd" = Some (map (fun k => snd (fst k) / 0) kd).
Proof.
  intros E Hz.
  apply loss_by_feat_trace_ok in E as (_ & _ & _ & _ & kd & _ & Fk & ->).
  assert (Hk : sum (map snd kd) = 0).
  { rewrite (sum_constant 0); [lra|].
    apply Forall_forall. intros v Hv.
    apply list_elem_of_fmap in Hv as (k & -> & Hk).
    apply list_elem_of_lookup in Hk as [j Hj].
    destruct (Forall2_lookup_r _ _ _ _ _ Fk Hj) as (level & Hlev & Hl).
    apply (kd_level_factor_zero _ _ _ _ Hl).
    destruct level as (tc & tb & rc & rb & lw). simpl.
    apply list_elem_of_lookup_2 in Hlev.
    do 4 apply elem_of_zip_r in Hlev.
    rewrite Forall_forall in Hz. apply Hz. exact Hlev. }
  split; [exact Hk|]. exists kd.
  destruct (assemble_lookup self (supervised_levels self cs bs gt metas ign)
              kd fs tfs) as (_ & _ & _ & _ & L5 & _).
  rewrite L5. simpl. rewrite Hk. reflexivity.
Qed.

(** X15.  [loss_by_feat] raises [AssertionError] when the number of
    score maps is not the number of levels of the student's prior
    generator, before anything else is looked at; with no level at all on
    either side the assertion passes and [cls_scores[0]] raises
    [IndexError].  The detector is handed back in both cases. *)
Theorem loss_by_feat_level_check tcs tbs tfs cs bs fs rcs rbs gt metas ign
    (self : CrossKDGFL) :
  (length cs <> num_levels (bbox_head (student self)) ->
   loss_by_feat tcs tbs tfs cs bs fs rcs rbs gt metas ign self
   = (Raise AssertionError, self)) /\
  (cs = [] -> num_levels (bbox_head (student self)) = 0%nat ->
   loss_by_feat tcs tbs tfs cs bs fs rcs rbs gt metas ign self
   = (Raise IndexError, self)).
Proof.
  split.
  - intros Hne.
    unfold loss_by_feat, loss_by_feat_trace, mbind, M_bind, get.
    rewrite length_map.
    destruct (Nat.eqb_spec (length cs)
                (num_levels (bbox_head (student self))));
      [contradiction | reflexivity].
  - intros -> H0.
    unfold loss_by_feat, loss_by_feat_trace, mbind, M_bind, get.
    simpl length. rewrite H0. reflexivity.
Qed.

(** X16.  In the dictionary returned by [loss_by_feat] the lists of the
    five terms loss_cls, loss_bbox, loss_dfl, loss_cls_kd and loss_reg_kd
    are not empty: loss_cls, loss_bbox and loss_dfl have the same number
    of entries, at least one and at most the number of levels;
    loss_cls_kd and loss_reg_kd have the same number of entries, at least
    one and at most the number of teacher score maps.  The list of
    loss_feat_kd, which is there when [with_feat_distill] is on, has as
    many entries as the shorter of the student's and the teacher's
    feature lists, and is empty when one of them is. *)
Theorem loss_dict_lengths tcs tbs tfs cs bs fs rcs rbs gt metas ign
    (self : CrossKDGFL) d s' :
  loss_by_feat tcs tbs tfs cs bs fs rcs rbs gt metas ign self = (Ok d, s') ->
  exists lc lb ld lck lrk,
    d !! "loss_cls" = Some lc /\ d !! "loss_bbox" = Some lb /\
    d !! "loss_dfl" = Some ld /\ d !! "loss_cls_kd" = Some lck /\
    d !! "loss_reg_kd" = Some lrk /\
    length lb = length lc /\ length ld = length lc /\
    (1 <= length lc <= num_levels (bbox_head (student self)))%nat /\
    length lrk = length lck /\
    (1 <= length lck <= length tcs)%nat /\
    (with_feat_distill self = true ->
     exists lf, d !! "loss_feat_kd" = Some lf /\
                length lf = Nat.min (length fs) (length tfs) /\
                (fs = [] \/ tfs = [] -> lf = [])) /\
    (with_feat_distill self = false -> d !! "loss_feat_kd" = None).
Proof.
  intros E. apply loss_by_feat_ok in E as (_ & tr & Et & ->).
  apply loss_by_feat_trace_ok in Et
    as (_ & Hlev & _ & Hsup & kd & Hkd & Fk & ->).
  destruct (assemble_lookup self (supervised_levels self cs bs gt metas ign)
              kd fs tfs) as (L1 & L2 & L3 & L4 & L5 & L6).
  do 5 eexists.
  repeat (split; [eassumption|]).
  rewrite !length_map.
  split; [reflexivity|]. split; [reflexivity|]. split.
  - split.
    + destruct (supervised_levels self cs bs gt metas ign);
        [congruence | simpl; lia].
    + rewrite <- Hlev. unfold supervised_levels.
      destruct (targets_of self cs gt metas ign)
        as [[[[[al ll] lwl] btl] bwl] avg].
      rewrite length_map, !length_zip_with. lia.
  - split; [reflexivity|]. split; [|split].
    + split.
      * destruct kd; [congruence | simpl; lia].
      * rewrite <- (Forall2_length _ _ _ Fk), !length_zip_with. lia.
    + intros Hfd. rewrite Hfd in L6. eexists. split; [exact L6|].
      split.
      * rewrite length_map, length_zip_with. reflexivity.
      * intros [-> | ->]; [reflexivity|].
        destruct fs; reflexivity.
    + intros Hfd. rewrite Hfd in L6. exact L6.
Qed.

(** X17.  [loss] raises [ValueError], and hands the detector back, when
    the teacher yields no feature level or its head has no scale: the
    tuple returned by [multi_apply] is then empty and cannot be
    unpacked. *)
Theorem loss_no_teacher_level inp smp (self : CrossKDGFL) :
  extract_feat (teacher self) inp = [] \/
  scales (bbox_head (teacher self)) = [] ->
  loss inp smp self = (Raise ValueError, self).
Proof.
  intros Hempty.
  assert (Hz : zip (extract_feat (teacher self) inp)
                 (scales (bbox_head (teacher self))) = []).
  { destruct Hempty as [-> | ->]; [reflexivity|].
    destruct (extract_feat (teacher self) inp); reflexivity. }
  unfold loss, loss_forward, mbind, M_bind, get. rewrite Hz. reflexivity.
Qed.

Lemma loss_forward_nonempty inp (self : CrossKDGFL) fw s' :
  loss_forward inp self = (Ok fw, s') ->
  fw_reused_cls_scores fw <> [].
Proof.
  unfold loss_forward. intros E.
  apply bind_ok in E as (self0 & s0 & Eg & E). injection Eg as <- <-.
  apply bind_ok in E as ([[[a1 a2] a3] a4] & s1 & Et & E).
  apply multi_apply_ok in Et as [-> _].
  2:{ intros [x scale] s0. apply read_only_forward_crosskd_single. }
  apply bind_ok in E as (self0 & s0 & Eg & E). injection Eg as <- <-.
  apply bind_ok in E as ([[[b1 b2] b3] b4] & s1 & Es & E).
  apply multi_apply_ok in Es as [-> _].
  2:{ intros [x scale] s0. apply read_only_forward_crosskd_single. }
  apply bind_ok in E as (self0 & s0 & Eg & E). injection Eg as <- <-.
  apply bind_ok in E as ([c1 c2] & s1 & Er & E).
  apply multi_apply_ok in Er as [-> (reused & Hne & Eunz & _)].
  2:{ intros (t1 & t2 & t3 & t4 & t5) s0.
      apply read_only_reuse_teacher_head. }
  injection Eunz as -> ->. injection E as <- <-. simpl.
  destruct reused; [congruence | discriminate].
Qed.

(** X18.  The forward passes of [loss] stop at the shortest list: the
    teacher's predictions are as many as the smaller of its feature
    levels and its scales, the student's likewise, and the reused
    predictions as many as the smaller of the two, which is at least
    one. *)
Theorem loss_forward_level_counts inp (self : CrossKDGFL) fw s' :
  loss_forward inp self = (Ok fw, s') ->
  let t := Nat.min (length (extract_feat (teacher self) inp))
             (length (scales (bbox_head (teacher self)))) in
  let s := Nat.min (length (extract_feat (student self) inp))
             (length (scales (bbox_head (student self)))) in
  length (fw_tea_cls_scores fw) = t /\
  length (fw_tea_bbox_preds fw) = t /\
  length (fw_stu_cls_scores fw) = s /\
  length (fw_stu_bbox_preds fw) = s /\
  length (fw_reused_cls_scores fw) = Nat.min t s /\
  length (fw_reused_bbox_preds fw) = Nat.min t s /\
  (1 <= Nat.min t s)%nat.
Proof.
  intros E. pose proof (loss_forward_nonempty _ _ _ _ E) as Hne.
  apply loss_forward_ok in E as (_ & Hfw).
  destruct Hfw as (tf & sf & re & Etx & Esx & Ft & Fs & Fr
                   & E1 & E2 & E3 & E4 & E5 & E6).
  apply Forall2_length in Ft, Fs, Fr.
  rewrite Etx in Ft. rewrite Esx in Fs.
  rewrite !length_zip_with, !length_map in Fr.
  rewrite length_zip_with in Ft, Fs.
  cbv zeta. rewrite E1, E2, E3, E4, E5, E6, !length_map.
  assert (Hre : (1 <= length re)%nat).
  { rewrite E5 in Hne. destruct re; [simpl in Hne; congruence | simpl; lia]. }
  lia.
Qed.

End LossExtras.

(** ** The further properties on small inputs *)

Section ExtraWitnesses.
Local Open Scope R_scope.

Lemma demo2_shape :
  shape4 1 2 1 3 Demo2.two_channels /\
  shape4 1 2 1 3 Demo2.tea_two_channels /\
  shape4 1 2 1 3 Demo2.tea_reversed.
Proof. repeat split; repeat constructor. Qed.


Lemma channel_view_round_trip_witness :
  exists rows,
    reshape_rows 2 (flatten4 (permute_1023 Demo2.two_channels)) = Ok rows /\
    permute_1023 (reshape_CNHW 1 1 3 rows) = Demo2.two_channels.
Proof.
  destruct (channel_view_round_trip 1 2 1 3 Demo2.two_channels
              (proj1 demo2_shape)) as (rows & E & _ & _ & Hback); try lia.
  exists rows. split; assumption.
Defined.

Lemma align_scale_entrywise_witness :
  exists out,
    align_scale Demo2.two_channels Demo2.tea_two_channels = Ok out /\
    entry out 0 0 0 2
    = (1 - mean (channel 0 Demo2.two_channels))
      / (std (channel 0 Demo2.two_channels) + eps)
      * std (channel 0 Demo2.tea_two_channels)
      + mean (channel 0 Demo2.tea_two_channels).
Proof.
  destruct (align_scale_entrywise 1 2 1 3 1 1 3 Demo2.two_channels
              Demo2.tea_two_channels (proj1 demo2_shape)
              (proj1 (proj2 demo2_shape))) as [E Hent];
    try (simpl; lia).
  eexists. split; [exact E|].
  exact (Hent 0%nat 0%nat 0%nat 2%nat ltac:(lia) ltac:(lia) ltac:(lia)
           ltac:(lia)).
Defined.

Lemma align_scale_constant_channel_witness :
  exists out,
    align_scale Demo2.two_channels Demo2.tea_two_channels = Ok out /\
    Forall (fun v => v = mean (channel 1 Demo2.tea_two_channels))
      (channel 1 out).
Proof.
  apply (align_scale_constant_channel 1 2 1 3 1 1 3 Demo2.two_channels
           Demo2.tea_two_channels 1 5 (proj1 demo2_shape)
           (proj1 (proj2 demo2_shape))); try (simpl; lia).
  repeat constructor.
Defined.

Lemma demo2_same_statistics (c : nat) :
  (c < 2)%nat ->
  mean (channel c Demo2.tea_two_channels) = mean (channel c Demo2.tea_reversed)
  /\ std (channel c Demo2.tea_two_channels)
     = std (channel c Demo2.tea_reversed).
Proof.
  intros Hc. destruct c as [|[|c]]; [| |lia].
  - split; [unfold mean, sum; simpl; lra|].
    unfold std, mean, sum. simpl. f_equal. lra.
  - split; [unfold mean, sum; simpl; lra|].
    unfold std, mean, sum. simpl. f_equal. lra.
Qed.

Lemma align_scale_teacher_statistics_witness :
  align_scale Demo2.two_channels Demo2.tea_two_channels
  = align_scale Demo2.two_channels Demo2.tea_reversed.
Proof.
  apply (align_scale_teacher_statistics 1 2 1 3 1 1 3 1 1 3
           Demo2.two_channels Demo2.tea_two_channels Demo2.tea_reversed
           (proj1 demo2_shape) (proj1 (proj2 demo2_shape))
           (proj2 (proj2 demo2_shape))); try (simpl; lia).
  exact demo2_same_statistics.
Defined.

Lemma align_scale_shift_invariant_witness :
  align_scale (shift4 7 Demo.stu_feat) Demo.tea_feat
  = align_scale Demo.stu_feat Demo.tea_feat.
Proof.
  apply (align_scale_shift_invariant 1 1 1 3 1 1 3 Demo.stu_feat
           Demo.tea_feat 7 (proj1 demo_shape) (proj2 demo_shape));
    simpl; lia.
Defined.

Lemma align_scale_teacher_mismatch_witness :
  align_scale Demo2.two_channels Demo.tea_feat = Raise RuntimeError.
Proof.
  apply (align_scale_teacher_mismatch 1 2 1 3 1 1 1 3 Demo2.two_channels
           Demo.tea_feat (proj1 demo2_shape) (proj2 demo_shape)); try lia.
  simpl. lia.
Defined.

Lemma held_features_step_witness :
  exists cls bbox cls_hold reg_hold,
    forward_crosskd_single Demo.tea_feat (fun t => t) Teacher
      (with_idx (Demo2.inplace_detector 0) 1)
    = (Ok (cls, bbox, cls_hold, reg_hold),
       with_idx (Demo2.inplace_detector 0) 1) /\
    forward_crosskd_single Demo.tea_feat (fun t => t) Teacher
      (with_idx (Demo2.inplace_detector 0) 2)
    = (Ok (cls, bbox,
           relu (conv_norm Demo.conv_inplace cls_hold),
           relu (conv_norm Demo.conv_inplace reg_hold)),
       with_idx (Demo2.inplace_detector 0) 2).
Proof.
  apply (held_features_step (Demo2.inplace_detector 0) Teacher Demo.tea_feat
           (fun t => t) 1 Demo.conv_inplace Demo.conv_inplace
           Demo.conv_inplace Demo.conv_inplace);
    solve [lia | reflexivity].
Defined.

Lemma reuse_teacher_head_no_conv_witness :
  exists a,
    align_scale Demo.stu_feat Demo.tea_feat = Ok a /\
    reuse_teacher_head Demo.tea_feat Demo.tea_feat Demo.stu_feat
      Demo.stu_feat (fun t => t) (Demo.detector 2 false)
    = (Ok (relu a, gfl_reg Demo.head (relu a)), Demo.detector 2 false).
Proof.
  destruct demo_align_runs as [a Ea]. exists a. split; [exact Ea|].
  apply (reuse_teacher_head_no_conv Demo.tea_feat Demo.tea_feat
           Demo.stu_feat Demo.stu_feat (fun t => t) (Demo.detector 2 false)
           a a); try exact Ea; simpl; lia.
Defined.

Lemma reuse_teacher_head_index_error_witness :
  reuse_teacher_head Demo.tea_feat Demo.tea_feat Demo.stu_feat
    Demo.stu_feat (fun t => t)
    (Demo2.detector_of (Demo.net Demo.stu_feat) Demo2.short_teacher 1)
  = (Raise IndexError,
     Demo2.detector_of (Demo.net Demo.stu_feat) Demo2.short_teacher 1).
Proof.
  destruct demo_align_runs as [a Ea].
  apply (reuse_teacher_head_index_error Demo.tea_feat Demo.tea_feat
           Demo.stu_feat Demo.stu_feat (fun t => t)
           (Demo2.detector_of (Demo.net Demo.stu_feat) Demo2.short_teacher 1)
           a a); try exact Ea; simpl; lia.
Defined.

Lemma pred_mimicking_mask_mismatch_witness :
  pred_mimicking_loss_single Demo.tea_score Demo.tea_box Demo.reused_score
    Demo.reused_box [[1; 1]] 2 (Demo.detector 1 false)
  = (Raise IndexError, Demo.detector 1 false).
Proof.
  eapply (pred_mimicking_mask_mismatch Demo.tea_score Demo.tea_box
            Demo.reused_score Demo.reused_box [[1; 1]] 2
            (Demo.detector 1 false)); try reflexivity.
  simpl. lia.
Defined.


Lemma reg_kd_weight_bounds_witness :
  exists lck lrk f,
    pred_mimicking_loss_single Demo.tea_score Demo.tea_box Demo.reused_score
      Demo.reused_box [[1; 1; 0]] 2 (Demo.detector 1 false)
    = (Ok (lck, lrk, f), Demo.detector 1 false) /\
    0 <= f <= 3.
Proof.
  eassert (E : pred_mimicking_loss_single Demo.tea_score Demo.tea_box
                 Demo.reused_score Demo.reused_box [[1; 1; 0]] 2
                 (Demo.detector 1 false) = (Ok (_, _, _), _))
    by reflexivity.
  destruct (reg_kd_weight_bounds _ _ _ _ _ _ _ _ _ _ _ E)
    as (tbr & rbr & w & _ & _ & _ & _ & Hf & _).
  do 3 eexists. split; [exact E|].
  assert (H3 : INR (length (concat [[1; 1; 0]])) = 3) by (simpl; lra).
  rewrite H3 in Hf. exact Hf.
Defined.

End ExtraWitnesses.


Lemma demo2_ignored_trace_runs :
  exists tr,
    loss_by_feat_trace [Demo.tea_score] [Demo.tea_box] [Demo.tea_feat]
      [Demo.reused_score] [Demo.reused_box] [Demo.stu_feat]
      [Demo.reused_score] [Demo.reused_box] tt tt tt
      (Demo2.detector_of Demo2.ignored_student (Demo.net Demo.tea_feat) 1)
    = (Ok tr,
       Demo2.detector_of Demo2.ignored_student (Demo.net Demo.tea_feat) 1).
Proof.
  eexists; unfold loss_by_feat_trace, mbind, M_bind; reflexivity.
Qed.

Lemma demo_loss_forward_runs :
  exists fw,
    loss_forward tt (Demo.detector 1 false) = (Ok fw, Demo.detector 1 false).
Proof. eexists. unfold loss_forward, mbind, M_bind. reflexivity. Qed.

Lemma kd_avg_factor_zero_witness :
  exists tr,
    loss_by_feat_trace [Demo.tea_score] [Demo.tea_box] [Demo.tea_feat]
      [Demo.reused_score] [Demo.reused_box] [Demo.stu_feat]
      [Demo.reused_score] [Demo.reused_box] tt tt tt
      (Demo2.detector_of Demo2.ignored_student (Demo.net Demo.tea_feat) 1)
    = (Ok tr,
       Demo2.detector_of Demo2.ignored_student (Demo.net Demo.tea_feat) 1) /\
    tr_kd_avg_factor tr = 0%R.
Proof.
  destruct demo2_ignored_trace_runs as [tr E]. exists tr.
  split; [exact E|].
  apply (kd_avg_factor_zero _ _ _ _ _ _ _ _ _ _ _ _ _ _ E).
  repeat constructor.
Defined.

Lemma loss_by_feat_level_check_witness :
  loss_by_feat [Demo.tea_score] [Demo.tea_box] [Demo.tea_feat]
    [] [] [Demo.stu_feat] [Demo.reused_score] [Demo.reused_box] tt tt tt
    (Demo.detector 1 false)
  = (Raise AssertionError, Demo.detector 1 false).
Proof.
  apply (proj1 (loss_by_feat_level_check (H := Demo.framework)
                  [Demo.tea_score] [Demo.tea_box]
                  [Demo.tea_feat] [] [] [Demo.stu_feat] [Demo.reused_score]
                  [Demo.reused_box] tt tt tt (Demo.detector 1 false))).
  simpl. lia.
Defined.

Lemma demo_loss_by_feat_no_feats_runs :
  exists d,
    loss_by_feat [Demo.tea_score] [Demo.tea_box] [Demo.tea_feat]
      [Demo.reused_score] [Demo.reused_box] []
      [Demo.reused_score] [Demo.reused_box] tt tt tt (Demo.detector 1 true)
    = (Ok d, Demo.detector 1 true).
Proof.
  eexists. unfold loss_by_feat, loss_by_feat_trace, mbind, M_bind.
  reflexivity.
Qed.

Lemma loss_dict_lengths_witness :
  exists d lc lck,
    loss_by_feat [Demo.tea_score] [Demo.tea_box] [Demo.tea_feat]
      [Demo.reused_score] [Demo.reused_box] []
      [Demo.reused_score] [Demo.reused_box] tt tt tt (Demo.detector 1 true)
    = (Ok d, Demo.detector 1 true) /\
    d !! "loss_cls" = Some lc /\ length lc = 1%nat /\
    d !! "loss_cls_kd" = Some lck /\ length lck = 1%nat /\
    d !! "loss_feat_kd" = Some [].
Proof.
  destruct demo_loss_by_feat_no_feats_runs as [d E].
  destruct (loss_dict_lengths _ _ _ _ _ _ _ _ _ _ _ _ _ _ E)
    as (lc & lb & ld & lck & lrk & L1 & _ & _ & L4 & _ & _ & _ & Hc & _ & Hk
        & Hf & _).
  destruct (Hf eq_refl) as (lf & L6 & _ & Hnil).
  rewrite (Hnil (or_introl eq_refl)) in L6.
  exists d, lc, lck. split; [exact E|].
  simpl in Hc, Hk.
  split; [exact L1|]. split; [lia|]. split; [exact L4|].
  split; [lia | exact L6].
Defined.

Lemma loss_no_teacher_level_witness :
  loss tt tt
    (Demo2.detector_of (Demo.net Demo.stu_feat) Demo2.no_level_teacher 1)
  = (Raise ValueError,
     Demo2.detector_of (Demo.net Demo.stu_feat) Demo2.no_level_teacher 1).
Proof.
  apply (loss_no_teacher_level (H := Demo.framework) tt tt
           (Demo2.detector_of (Demo.net Demo.stu_feat)
              Demo2.no_level_teacher 1)).
  left. reflexivity.
Defined.

Lemma loss_forward_level_counts_witness :
  exists fw,
    loss_forward tt (Demo.detector 1 false)
    = (Ok fw, Demo.detector 1 false) /\
    length (fw_tea_cls_scores fw) = 1%nat /\
    length (fw_reused_cls_scores fw) = 1%nat.
Proof.
  destruct demo_loss_forward_runs as [fw E]. exists fw.
  destruct (loss_forward_level_counts _ _ _ _ E)
    as (H1 & _ & _ & _ & H5 & _).
  split; [exact E|]. split; [exact H1 | exact H5].
Defined.


(** ** [loss_by_feat] on consistent inputs *)

Section LossRuns.
Context `{Framework}.

Lemma mapM_runs {S A B} (f : A -> M S B) (l : list A) (s : S) :
  Forall (fun a => exists b, f a s = (Ok b, s)) l ->
  exists bs, mapM f l s = (Ok bs, s) /\ length bs = length l.
Proof.
  induction 1 as [|a l [b Hb] _ (bs & Hbs & Hlen)].
  - exists []. split; reflexivity.
  - exists (b :: bs). simpl. unfold mbind, M_bind.
    rewrite Hb. fold (@mbind (M S) _). unfold mbind, M_bind.
    rewrite Hbs. split; [reflexivity | simpl; lia].
Qed.

Lemma multi_apply_runs {S A B T} (unzip : list B -> T) (f : A -> M S B)
    (l : list A) (s : S) :
  l <> [] ->
  Forall (fun a => exists b, f a s = (Ok b, s)) l ->
  exists t, multi_apply unzip f l s = (Ok t, s).
Proof.
  intros Hne Hall. destruct (mapM_runs f l s Hall) as (bs & E & Hlen).
  unfold multi_apply, mbind, M_bind. rewrite E.
  destruct bs as [|b bs].
  - destruct l; [congruence | discriminate].
  - eexists. reflexivity.
Qed.

Lemma returns_ex {S A} (x : Res A * S) (s : S) :
  returns x s <-> exists a, x = (Ok a, s).
Proof.
  destruct x as [[a|e] s']; simpl; split.
  - intros ->. eauto.
  - intros [a' E]. congruence.
  - contradiction.
  - intros [a' E]. discriminate.
Qed.

Lemma returns_bind {S A B} (m : M S A) (k : A -> M S B) (s s' : S) :
  returns (m s) s -> (forall a, m s = (Ok a, s) -> returns (k a s) s') ->
  returns ((m ≫= k) s) s'.
Proof.
  intros Hm Hk. unfold mbind, M_bind.
  destruct (m s) as [[a|e] s1]; simpl in Hm;
    [subst; now apply Hk | contradiction].
Qed.

Lemma returns_multi_apply {S A B T} (unzip : list B -> T) (f : A -> M S B)
    (l : list A) (s : S) :
  l <> [] -> Forall (fun a => returns (f a s) s) l ->
  returns (multi_apply unzip f l s) s.
Proof.
  intros Hne Hall. apply returns_ex.
  apply multi_apply_runs; [exact Hne|].
  eapply Forall_impl; [exact Hall|]. intros a Ha. now apply returns_ex.
Qed.

(** X19.  [loss_by_feat] returns a dictionary, and hands the detector
    back, whenever the number of score maps is the number of levels, the
    level lists it zips are not empty and, on every level, the
    predictions and the label weights have consistent shapes. *)
Theorem loss_by_feat_runs tcs tbs tfs cs bs fs rcs rbs gt metas ign
    (self : CrossKDGFL) :
  length cs = num_levels (bbox_head (student self)) ->
  supervised_levels self cs bs gt metas ign <> [] ->
  zip tcs (zip tbs (zip rcs (zip rbs
    (label_weights_of self cs gt metas ign)))) <> [] ->
  Forall (level_shapes self)
    (zip tcs (zip tbs (zip rcs (zip rbs
       (label_weights_of self cs gt metas ign))))) ->
  exists d,
    loss_by_feat tcs tbs tfs cs bs fs rcs rbs gt metas ign self
    = (Ok d, self).
Proof.
  intros Hlev Hsup Hkd Hshapes.
  assert (Hcs : cs <> []).
  { intros ->. apply Hsup. unfold supervised_levels.
    destruct (targets_of self [] gt metas ign)
      as [[[[[al ll] lwl] btl] bwl] avg].
    destruct al; reflexivity. }
  assert (Htr : returns
             (loss_by_feat_trace tcs tbs tfs cs bs fs rcs rbs gt metas ign
                self) self).
  { unfold loss_by_feat_trace.
    apply returns_bind; [reflexivity|]. intros self0 E0.
    injection E0 as <-. cbv zeta.
    rewrite length_map, Hlev, Nat.eqb_refl. simpl negb. cbv iota.
    apply returns_bind.
    { destruct cs; [congruence | reflexivity]. }
    intros _ _. revert Hsup Hkd Hshapes.
    unfold supervised_levels, label_weights_of, targets_of.
    destruct (get_anchors _ _ _) as [al vf].
    destruct (get_targets _ _ _ _ _ _) as [[[[[al' ll] lwl] btl] bwl] avg].
    intros Hsup Hkd Hshapes.
    apply returns_bind.
    { apply returns_multi_apply.
      - intros E. apply Hsup. rewrite E. reflexivity.
      - apply Forall_forall.
        intros (a1 & a2 & a3 & a4 & a5 & a6 & a7) _. reflexivity. }
    intros [[[lc lb] ld] nf] _.
    apply returns_bind.
    { apply returns_multi_apply; [exact Hkd|].
      eapply Forall_impl; [exact Hshapes|].
      intros (tc & tb & rc & rb & lw)
        (N & A & Hh & W & Cb & S1 & S2 & S3 & S4 & HN & HH & HA & HK & HCb & Hl).
      destruct (pred_mimicking_returns N A Hh W Cb tc tb rc rb lw
                  (reduce_mean avg) self S1 S2 S3 S4 HN HH HA HK HCb Hl)
        as (lck & lrk & w & E & _).
      rewrite E. reflexivity. }
    intros [[lck lrk] kf] _. reflexivity. }
  apply returns_ex in Htr as [tr Etr]. exists (tr_losses tr).
  exact (loss_by_feat_of_trace _ _ _ _ _ _ _ _ _ _ _ _ _ _ Etr).
Qed.

End LossRuns.

Lemma loss_by_feat_runs_witness :
  exists d,
    loss_by_feat [Demo.tea_score] [Demo.tea_box] [Demo.tea_feat]
      [Demo.reused_score] [Demo.reused_box] [Demo.stu_feat]
      [Demo.reused_score] [Demo.reused_box] tt tt tt (Demo.detector 1 false)
    = (Ok d, Demo.detector 1 false).
Proof.
  apply (loss_by_feat_runs (H := Demo.framework)); try discriminate;
    try reflexivity.
  repeat constructor. exists 1%nat, 1%nat, 1%nat, 3%nat, 4%nat.
  simpl. repeat split; repeat constructor.
Defined.
